(** * Round accounting and the round commit of the indexer

    A shallow embedding of [accounting/accounting.go] (the accounting
    engine) and of the accounting part of [idb/postgres.go] (the round
    commit and the transaction cursor), with the properties the
    specification states about them. *)

From Stdlib Require Import ZArith.
From stdpp Require Import gmap strings list fin_maps.
From stdpp Require Import sorting pretty.

Local Open Scope Z_scope.

(** ** Machine integers

    Go's [uint64] and [int64] are integers in [Z]; every conversion and
    every arithmetic operation of the source is followed by the reduction
    the machine performs. *)

Module Int.

Definition uint64 (x : Z) : Z := x mod 2 ^ 64.

Definition int64 (x : Z) : Z := (x + 2 ^ 63) mod 2 ^ 64 - 2 ^ 63.

End Int.

(** ** Data model *)

(** [types.Address] is [[32]byte]; an address is represented by the number
    its 32 bytes spell, so the zero address is [0]. *)
Abbreviation Address := N.

Definition addrIsZero (a : Address) : bool := bool_decide (a = 0%N).

(** Modelled from the spec: [types.AssetParams] is declared in the [types]
    package, which is not part of the sources at hand.  The engine reads
    [Total] and [DefaultFrozen] and asks whether the parameters are "the
    zero value". *)
Record AssetParams := mkAssetParams {
  Total : Z;
  Decimals : Z;
  DefaultFrozen : bool;
  UnitName : string;
  AssetName : string;
  URL : string;
  MetadataHash : N;
  Manager : Address;
  Reserve : Address;
  Freeze : Address;
  Clawback : Address
}.

Definition zeroParams : AssetParams :=
  mkAssetParams 0 0 false "" "" "" 0 0 0 0 0.

#[global] Instance AssetParams_eq_dec : EqDecision AssetParams.
Proof. solve_decision. Defined.

Definition IsZero (ap : AssetParams) : bool := bool_decide (ap = zeroParams).

(** Modelled from the spec: [idb.RoundUpdates] and its row types are
    declared in a file of package [idb] that is not part of the sources at
    hand.  The fields are those the engine fills and the commit reads; the
    spec lists them as the six parts of the pending delta batch. *)
Record AssetUpdate := mkAssetUpdate {
  au_Addr : Address; au_AssetId : Z; au_Delta : Z; au_DefaultFrozen : bool
}.

Record AcfgUpdate := mkAcfgUpdate {
  cu_AssetId : Z; cu_Creator : Address; cu_Params : AssetParams
}.

Record FreezeUpdate := mkFreezeUpdate {
  fu_Addr : Address; fu_AssetId : Z; fu_Frozen : bool
}.

Record AssetClose := mkAssetClose {
  ac_CloseTo : Address; ac_AssetId : Z; ac_Sender : Address
}.

(** A nil Go map or slice is the empty map or list: the source only ever
    takes their length, ranges over them, appends, or (for the map)
    allocates before the first store. *)
Record RoundUpdates := mkRoundUpdates {
  AlgoUpdates : gmap Address Z;
  AssetUpdates : list AssetUpdate;
  AcfgUpdates : list AcfgUpdate;
  FreezeUpdates : list FreezeUpdate;
  AssetCloses : list AssetClose;
  AssetDestroys : list Z
}.

Definition noUpdates : RoundUpdates := mkRoundUpdates ∅ [] [] [] [] [].

(** ** The persistent store

    Each table is a finite map from its primary key (the conflict target
    of the statements below) to the remaining columns.  Columns the round
    commit never names are left out.  Amount columns are unbounded
    integers. *)

Record AccountRow := mkAccountRow { microalgos : Z; rewardsbase : Z }.

Record AssetRow := mkAssetRow { creator_addr : Address; params : AssetParams }.

Record HoldingRow := mkHoldingRow { amount : Z; frozen : bool }.

(** [idb.ImportState], the document kept under key ['state'] of
    [metastate]; the row holds the document, its JSON text is not
    modelled. *)
Record ImportState := mkImportState { AccountRound : Z }.

(** [istate.AccountRound = r] *)
Definition set_AccountRound (r : Z) (istate : ImportState) : ImportState :=
  mkImportState r.

(** Modelled from the spec: [types.Block] is declared in the [types]
    package, which is not part of the sources at hand; these are the fields
    [initRound] reads, the round context of the spec. *)
Record Block := mkBlock {
  FeeSink : Address; RewardsPool : Address; RewardsLevel : Z
}.

Record Store := mkStore {
  account : gmap Address AccountRow;
  asset : gmap Z AssetRow;
  account_asset : gmap (Address * Z) HoldingRow;
  metastate_state : option ImportState;
  block_header : gmap Z Block
}.

Definition with_account (f : gmap Address AccountRow → gmap Address AccountRow)
    (s : Store) : Store :=
  mkStore (f (account s)) (asset s) (account_asset s) (metastate_state s)
          (block_header s).

Definition with_asset (f : gmap Z AssetRow → gmap Z AssetRow) (s : Store) : Store :=
  mkStore (account s) (f (asset s)) (account_asset s) (metastate_state s)
          (block_header s).

Definition with_account_asset
    (f : gmap (Address * Z) HoldingRow → gmap (Address * Z) HoldingRow)
    (s : Store) : Store :=
  mkStore (account s) (asset s) (f (account_asset s)) (metastate_state s)
          (block_header s).

Definition with_metastate_state (v : option ImportState) (s : Store) : Store :=
  mkStore (account s) (asset s) (account_asset s) v (block_header s).

(** ** Failures

    Every call into [database/sql] can fail.  Which calls fail is given by
    an oracle over the calls of one round commit.  A call that fails has no
    effect on the rows of the open transaction, as when the driver refuses
    an argument before anything is sent; what the code does next is up to
    the [err] it tests. *)

Inductive Category :=
  CAlgo | CAcfg | CAsset | CFreeze | CCloseSend | CCloseDel | CDestroy.

Inductive Step :=
| SBegin
| SPrepare (c : Category)
| SExec (c : Category) (k : nat)
| SReadState
| SDecodeState
| SWriteState
| SCommit
| SGetBlock.

#[global] Instance Category_eq_dec : EqDecision Category.
Proof. solve_decision. Defined.

#[global] Instance Step_eq_dec : EqDecision Step.
Proof. solve_decision. Defined.

Inductive Error :=
| EStorage (s : Step)
| ECardinality
| ENoRows
| ERead (msg : string)
| EDecode
| ECommitRound (e : Error)
| EInitRound (e : Error)
| EUnknownType (ty : string).

Inductive Res (A : Type) :=
| Ok (a : A)
| Err (e : Error).

Arguments Ok {A} a.
Arguments Err {A} e.

#[global] Instance Res_ret : MRet Res := λ A a, Ok a.

#[global] Instance Res_bind : MBind Res := λ A B k r,
  match r with
  | Ok a => k a
  | Err e => Err e
  end.

Definition never : Step → bool := fun _ => false.

Definition only (s : Step) : Step → bool := fun s' => bool_decide (s' = s).

(** Every [Exec] of the destroy statement fails, nothing else does. *)
Definition failDestroy : Step → bool := fun s =>
  match s with
  | SExec CDestroy _ => true
  | _ => false
  end.

(** ** The statements of the round commit

    Each definition is the effect of one execution of the prepared
    statement of the same name in [CommitRoundAccounting]. *)

Module Sql.

(** [setalgo]: insert the account with the delta as balance, or add the
    delta to the balance and overwrite the rewards base. *)
Definition setalgo (rewardsBase : Z) (x : Address * Z) (tx : Store) : Store :=
  with_account (λ t,
    match t !! x.1 with
    | Some r => <[x.1 := mkAccountRow (microalgos r + x.2) rewardsBase]> t
    | None => <[x.1 := mkAccountRow x.2 rewardsBase]> t
    end) tx.

(** [setacfg]: insert the asset, or replace its parameters. *)
Definition setacfg (au : AcfgUpdate) (tx : Store) : Store :=
  with_asset (λ t,
    match t !! cu_AssetId au with
    | Some r => <[cu_AssetId au := mkAssetRow (creator_addr r) (cu_Params au)]> t
    | None => <[cu_AssetId au := mkAssetRow (cu_Creator au) (cu_Params au)]> t
    end) tx.

(** The upsert-add on [account_asset] shared by [seta] and [acs]. *)
Definition add_holding (k : Address * Z) (d : Z) (fz : bool)
    (t : gmap (Address * Z) HoldingRow) : gmap (Address * Z) HoldingRow :=
  match t !! k with
  | Some r => <[k := mkHoldingRow (amount r + d) (frozen r)]> t
  | None => <[k := mkHoldingRow d fz]> t
  end.

(** [seta]: the frozen flag is only used when the row is created. *)
Definition seta (au : AssetUpdate) (tx : Store) : Store :=
  with_account_asset
    (add_holding (au_Addr au, au_AssetId au) (au_Delta au) (au_DefaultFrozen au)) tx.

(** [fr]: insert a zero holding with the flag, or overwrite the flag. *)
Definition fr (fs : FreezeUpdate) (tx : Store) : Store :=
  with_account_asset (λ t,
    let k := (fu_Addr fs, fu_AssetId fs) in
    match t !! k with
    | Some r => <[k := mkHoldingRow (amount r) (fu_Frozen fs)]> t
    | None => <[k := mkHoldingRow 0 (fu_Frozen fs)]> t
    end) tx.

(** The rows [x] of [account_asset] with [x.addr = sender], whatever
    their asset: what [acs] selects and what [acd] deletes. *)
Definition rows_of (sender : Address) (t : gmap (Address * Z) HoldingRow)
    : gmap (Address * Z) HoldingRow :=
  filter (λ kv, kv.1.1 = sender) t.

(** [acs]: INSERT ... SELECT closeTo, assetid, x.amount FROM account_asset x
    WHERE x.addr = sender ON CONFLICT DO UPDATE.  Every selected row is
    proposed under the same key (closeTo, assetid); PostgreSQL rejects an
    ON CONFLICT DO UPDATE command that would touch one row twice, so the
    statement fails when the sender has more than one row.  The frozen
    column is not named and takes its default. *)
Definition acs (ac : AssetClose) (tx : Store) : Res Store :=
  match map_to_list (rows_of (ac_Sender ac) (account_asset tx)) with
  | [] => Ok tx
  | [(_, x)] =>
      Ok (with_account_asset
            (add_holding (ac_CloseTo ac, ac_AssetId ac) (amount x) false) tx)
  | _ => Err ECardinality
  end.

(** [acd]: DELETE FROM account_asset WHERE addr = sender. *)
Definition acd (ac : AssetClose) (tx : Store) : Store :=
  with_account_asset (filter (λ kv, kv.1.1 ≠ ac_Sender ac)) tx.

(** [ads]: DELETE FROM account_asset WHERE assetid = id. *)
Definition ads (assetId : Z) (tx : Store) : Store :=
  with_account_asset (filter (λ kv, kv.1.2 ≠ assetId)) tx.

End Sql.

(** ** [CommitRoundAccounting] *)

Section Commit.

Variable fails : Step → bool.

(** One [stmt.Exec] whose error is checked. *)
Definition exec (c : Category) (k : nat) (tx : Res Store) : Res Store :=
  if fails (SExec c k) then Err (EStorage (SExec c k)) else tx.

(** [for _, x := range xs { _, err = stmt.Exec(x); if err != nil { return } }] *)
Fixpoint exec_each {X} (c : Category) (stmt : X → Store → Store)
    (k : nat) (xs : list X) (tx : Store) : Res Store :=
  match xs with
  | [] => Ok tx
  | x :: xs' =>
      tx' ← exec c k (Ok (stmt x tx));
      exec_each c stmt (S k) xs' tx'
  end.

(** The loop over [updates.AssetCloses]: [acs] then [acd] per closure. *)
Fixpoint close_each (k : nat) (xs : list AssetClose) (tx : Store) : Res Store :=
  match xs with
  | [] => Ok tx
  | ac :: xs' =>
      tx1 ← exec CCloseSend k (Sql.acs ac tx);
      tx2 ← exec CCloseDel k (Ok (Sql.acd ac tx1));
      close_each (S k) xs' tx2
  end.

(** The loop over [updates.AssetDestroys].  The result of [ads.Exec] is
    dropped; the [err] tested afterwards is the one [tx.Prepare] returned,
    which is nil here, so the loop never returns early. *)
Fixpoint destroy_each (k : nat) (xs : list Z) (tx : Store) : Store :=
  match xs with
  | [] => tx
  | assetId :: xs' =>
      let tx' := if fails (SExec CDestroy k) then tx else Sql.ads assetId tx in
      destroy_each (S k) xs' tx'
  end.

Definition prepare (c : Category) : Res unit :=
  if fails (SPrepare c) then Err (EStorage (SPrepare c)) else Ok ().

(** [if len(xs) > 0 { any = true; prepare; loop }] *)
Definition category {X} (xs : list X) (c : Category)
    (loop : list X → Store → Res Store) (st : bool * Store) : Res (bool * Store) :=
  match xs with
  | [] => Ok st
  | _ => _ ← prepare c; tx' ← loop xs st.2; Ok (true, tx')
  end.

(** The body between [Begin] and [Commit]: [Ok None] is the plain
    return under [!any], [Ok (Some tx)] the transaction to commit. *)
Definition commit_body (updates : RoundUpdates) (round rewardsBase : Z)
    (db : Store) : Res (option Store) :=
  st ← category (map_to_list (AlgoUpdates updates)) CAlgo
        (exec_each CAlgo (Sql.setalgo rewardsBase) 0) (false, db);
  st ← category (AcfgUpdates updates) CAcfg (exec_each CAcfg Sql.setacfg 0) st;
  st ← category (AssetUpdates updates) CAsset (exec_each CAsset Sql.seta 0) st;
  st ← category (FreezeUpdates updates) CFreeze (exec_each CFreeze Sql.fr 0) st;
  st ← category (AssetCloses updates) CCloseSend
        (λ xs tx, _ ← prepare CCloseDel; close_each 0 xs tx) st;
  st ← category (AssetDestroys updates) CDestroy
        (λ xs tx, Ok (destroy_each 0 xs tx)) st;
  if negb st.1 then Ok None else
  istate ←
    (if fails SReadState then Err (EStorage SReadState) else
     match metastate_state st.2 with
     | None => Ok (mkImportState 0)
     | Some doc =>
         if fails SDecodeState then Err (EStorage SDecodeState) else Ok doc
     end);
  let istate := set_AccountRound (Int.int64 round) istate in
  if fails SWriteState then Err (EStorage SWriteState) else
  Ok (Some (with_metastate_state (Some istate) st.2)).

(** The result is the returned error and the store as it is once the
    deferred [tx.Rollback()] has run: the committed transaction, or the
    store as it was. *)
Definition CommitRoundAccounting (updates : RoundUpdates) (round rewardsBase : Z)
    (db : Store) : option Error * Store :=
  if fails SBegin then (Some (EStorage SBegin), db) else
  match commit_body updates round rewardsBase db with
  | Err e => (Some e, db)
  | Ok None => (None, db)
  | Ok (Some tx) =>
      if fails SCommit then (Some (EStorage SCommit), db) else (None, tx)
  end.

(** [GetBlock]: the header row of the round, or [sql.ErrNoRows]. *)
Definition GetBlock (round : Z) (db : Store) : Res Block :=
  if fails SGetBlock then Err (EStorage SGetBlock) else
  match block_header db !! round with
  | Some b => Ok b
  | None => Err ENoRows
  end.

End Commit.

(** ** The accounting engine *)

(** Modelled from the spec: [types.SignedTxnInBlock] is declared in the
    [types] package, which is not part of the sources at hand.  These are
    the fields [AddTransaction] reads: the transaction's own ([stxn.Txn.*])
    and the values ledger execution recorded beside it. *)
Record SignedTxnInBlock := mkStxn {
  Sender : Address;
  Fee : Z;
  TxType : string;
  Amount : Z;
  Receiver : Address;
  CloseRemainderTo : Address;
  ConfigAsset : Z;
  TxnAssetParams : AssetParams;
  XferAsset : Z;
  AssetAmount : Z;
  AssetSender : Address;
  AssetReceiver : Address;
  AssetCloseTo : Address;
  FreezeAccount : Address;
  FreezeAsset : Z;
  AssetFrozen : bool;
  SenderRewards : Z;
  ReceiverRewards : Z;
  CloseRewards : Z;
  ClosingAmount : Z
}.

(** [AccountingState]; the [db] handle is the [Store] threaded beside it. *)
Record AccountingState := mkAccountingState {
  defaultFrozen : gmap Z bool;
  currentRound : Z;
  updates : RoundUpdates;
  feeAddr : Address;
  rewardAddr : Address;
  rewardsLevel : Z;
  txnCounter : Z
}.

Definition New : AccountingState := mkAccountingState ∅ 0 noUpdates 0%N 0%N 0 0.

Definition with_updates (f : RoundUpdates → RoundUpdates) (a : AccountingState)
    : AccountingState :=
  mkAccountingState (defaultFrozen a) (currentRound a) (f (updates a))
    (feeAddr a) (rewardAddr a) (rewardsLevel a) (txnCounter a).

Definition with_defaultFrozen (f : gmap Z bool → gmap Z bool) (a : AccountingState)
    : AccountingState :=
  mkAccountingState (f (defaultFrozen a)) (currentRound a) (updates a)
    (feeAddr a) (rewardAddr a) (rewardsLevel a) (txnCounter a).

Definition with_AlgoUpdates (f : gmap Address Z → gmap Address Z) (u : RoundUpdates)
    : RoundUpdates :=
  mkRoundUpdates (f (AlgoUpdates u)) (AssetUpdates u) (AcfgUpdates u)
    (FreezeUpdates u) (AssetCloses u) (AssetDestroys u).

Definition with_AssetUpdates (f : list AssetUpdate → list AssetUpdate)
    (u : RoundUpdates) : RoundUpdates :=
  mkRoundUpdates (AlgoUpdates u) (f (AssetUpdates u)) (AcfgUpdates u)
    (FreezeUpdates u) (AssetCloses u) (AssetDestroys u).

Definition with_AcfgUpdates (f : list AcfgUpdate → list AcfgUpdate)
    (u : RoundUpdates) : RoundUpdates :=
  mkRoundUpdates (AlgoUpdates u) (AssetUpdates u) (f (AcfgUpdates u))
    (FreezeUpdates u) (AssetCloses u) (AssetDestroys u).

Definition with_FreezeUpdates (f : list FreezeUpdate → list FreezeUpdate)
    (u : RoundUpdates) : RoundUpdates :=
  mkRoundUpdates (AlgoUpdates u) (AssetUpdates u) (AcfgUpdates u)
    (f (FreezeUpdates u)) (AssetCloses u) (AssetDestroys u).

Definition with_AssetCloses (f : list AssetClose → list AssetClose)
    (u : RoundUpdates) : RoundUpdates :=
  mkRoundUpdates (AlgoUpdates u) (AssetUpdates u) (AcfgUpdates u)
    (FreezeUpdates u) (f (AssetCloses u)) (AssetDestroys u).

Definition with_AssetDestroys (f : list Z → list Z) (u : RoundUpdates)
    : RoundUpdates :=
  mkRoundUpdates (AlgoUpdates u) (AssetUpdates u) (AcfgUpdates u)
    (FreezeUpdates u) (AssetCloses u) (f (AssetDestroys u)).

(** [m[addr]] of a Go map: the zero value when the key is absent. *)
Definition algoDelta (m : gmap Address Z) (addr : Address) : Z :=
  default 0 (m !! addr).

Definition updateAlgo (addr : Address) (d : Z) (a : AccountingState)
    : AccountingState :=
  with_updates
    (with_AlgoUpdates (λ m, <[addr := Int.int64 (algoDelta m addr + d)]> m)) a.

Definition updateAsset (addr : Address) (assetId d : Z) (a : AccountingState)
    : AccountingState :=
  with_updates
    (with_AssetUpdates (λ l,
       l ++ [mkAssetUpdate addr assetId d
               (default false (defaultFrozen a !! assetId))])) a.

Definition closeAsset (from : Address) (assetId : Z) (to : Address)
    (a : AccountingState) : AccountingState :=
  with_updates (with_AssetCloses (λ l, l ++ [mkAssetClose to assetId from])) a.

Definition freezeAsset (addr : Address) (assetId : Z) (fz : bool)
    (a : AccountingState) : AccountingState :=
  with_updates (with_FreezeUpdates (λ l, l ++ [mkFreezeUpdate addr assetId fz])) a.

Definition destroyAsset (assetId : Z) (a : AccountingState) : AccountingState :=
  with_updates (with_AssetDestroys (λ l, l ++ [assetId])) a.

(** [-int64(x)] for a [uint64] x. *)
Definition negInt64 (x : Z) : Z := Int.int64 (- Int.int64 x).

(** The two (or four) [updateAlgo] calls every transaction starts with. *)
Definition feeAccounting (stxn : SignedTxnInBlock) (a : AccountingState)
    : AccountingState :=
  let a := updateAlgo (Sender stxn) (negInt64 (Fee stxn)) a in
  let a := updateAlgo (feeAddr a) (Int.int64 (Fee stxn)) a in
  if bool_decide (SenderRewards stxn ≠ 0) then
    let a := updateAlgo (Sender stxn) (Int.int64 (SenderRewards stxn)) a in
    updateAlgo (rewardAddr a) (negInt64 (SenderRewards stxn)) a
  else a.

Definition payAccounting (stxn : SignedTxnInBlock) (a : AccountingState)
    : AccountingState :=
  let amount := Int.int64 (Amount stxn) in
  let a :=
    if bool_decide (amount ≠ 0) then
      updateAlgo (Receiver stxn) amount
        (updateAlgo (Sender stxn) (Int.int64 (- amount)) a)
    else a in
  let a :=
    if bool_decide (ClosingAmount stxn ≠ 0) then
      updateAlgo (CloseRemainderTo stxn) (Int.int64 (ClosingAmount stxn))
        (updateAlgo (Sender stxn) (negInt64 (ClosingAmount stxn)) a)
    else a in
  let a :=
    if bool_decide (ReceiverRewards stxn ≠ 0) then
      updateAlgo (rewardAddr a) (negInt64 (ReceiverRewards stxn))
        (updateAlgo (Receiver stxn) (Int.int64 (ReceiverRewards stxn)) a)
    else a in
  if bool_decide (CloseRewards stxn ≠ 0) then
    updateAlgo (rewardAddr a) (negInt64 (CloseRewards stxn))
      (updateAlgo (CloseRemainderTo stxn) (Int.int64 (CloseRewards stxn)) a)
  else a.

(** The asset ID an [acfg] transaction is about. *)
Definition acfgAssetId (intra : Z) (stxn : SignedTxnInBlock) (a : AccountingState)
    : Z :=
  if bool_decide (ConfigAsset stxn = 0) then
    Int.uint64 (Int.uint64 (txnCounter a + Int.uint64 intra) + 1)
  else ConfigAsset stxn.

Definition acfgAccounting (intra : Z) (stxn : SignedTxnInBlock)
    (a : AccountingState) : AccountingState :=
  let assetId := acfgAssetId intra stxn a in
  if IsZero (TxnAssetParams stxn) then destroyAsset assetId a
  else
    let a :=
      with_updates (with_AcfgUpdates (λ l,
        l ++ [mkAcfgUpdate assetId (Sender stxn) (TxnAssetParams stxn)])) a in
    let a :=
      with_defaultFrozen
        (<[assetId := DefaultFrozen (TxnAssetParams stxn)]>) a in
    if bool_decide (ConfigAsset stxn = 0) then
      if bool_decide (Total (TxnAssetParams stxn) ≠ 0) then
        updateAsset (Sender stxn) assetId
          (Int.int64 (Total (TxnAssetParams stxn))) a
      else a
    else a.

Definition axferAccounting (stxn : SignedTxnInBlock) (a : AccountingState)
    : AccountingState :=
  let sender :=
    if addrIsZero (AssetSender stxn) then Sender stxn else AssetSender stxn in
  let a :=
    if bool_decide (AssetAmount stxn ≠ 0) then
      updateAsset (AssetReceiver stxn) (XferAsset stxn)
        (Int.int64 (AssetAmount stxn))
        (updateAsset sender (XferAsset stxn) (negInt64 (AssetAmount stxn)) a)
    else a in
  if negb (addrIsZero (AssetCloseTo stxn)) then
    closeAsset sender (XferAsset stxn) (AssetCloseTo stxn) a
  else a.

(** The chain of [if stxn.Txn.Type == ...] after the fee accounting. *)
Definition typeAccounting (intra : Z) (stxn : SignedTxnInBlock)
    (a : AccountingState) : option Error * AccountingState :=
  if bool_decide (TxType stxn = "pay") then (None, payAccounting stxn a)
  else if bool_decide (TxType stxn = "keyreg") then (None, a)
  else if bool_decide (TxType stxn = "acfg") then (None, acfgAccounting intra stxn a)
  else if bool_decide (TxType stxn = "axfer") then (None, axferAccounting stxn a)
  else if bool_decide (TxType stxn = "afrz") then
    (None, freezeAsset (FreezeAccount stxn) (FreezeAsset stxn) (AssetFrozen stxn) a)
  else (Some (EUnknownType (TxType stxn)), a).

Section Engine.

(** [msgpack.Decode] into a [SignedTxnInBlock]: the decoder boundary. *)
Variable decode : list Byte.byte → option SignedTxnInBlock.

Variable fails : Step → bool.

Definition initRound (round : Z) (a : AccountingState) (db : Store)
    : Res AccountingState :=
  block ← GetBlock fails round db;
  Ok (mkAccountingState (defaultFrozen a) round (updates a)
        (FeeSink block) (RewardsPool block) (RewardsLevel block) (txnCounter a)).

Definition commitRound (a : AccountingState) (db : Store)
    : option Error * AccountingState * Store :=
  match CommitRoundAccounting fails (updates a) (currentRound a) (rewardsLevel a) db with
  | (Some e, db') => (Some e, a, db')
  | (None, db') => (None, with_updates (λ _, noUpdates) a, db')
  end.

Definition Close := commitRound.

(** [if accounting.currentRound != round { commitRound; initRound }] *)
Definition roundTransition (round : Z) (a : AccountingState) (db : Store)
    : option Error * AccountingState * Store :=
  if bool_decide (currentRound a ≠ round) then
    match commitRound a db with
    | (Some e, a', db') => (Some (ECommitRound e), a', db')
    | (None, a', db') =>
        match initRound round a' db' with
        | Err e => (Some (EInitRound e), a', db')
        | Ok a'' => (None, a'', db')
        end
    end
  else (None, a, db).

Definition AddTransaction (round intra : Z) (txnbytes : list Byte.byte)
    (a : AccountingState) (db : Store) : option Error * AccountingState * Store :=
  match decode txnbytes with
  | None => (Some EDecode, a, db)
  | Some stxn =>
      match roundTransition round a db with
      | (Some e, a', db') => (Some e, a', db')
      | (None, a', db') =>
          let '(err, a'') := typeAccounting intra stxn (feeAccounting stxn a') in
          (err, a'', db')
      end
  end.

End Engine.

(** ** The transaction cursor *)

(** Modelled from the spec: [idb.TxnRow] is declared in a file of package
    [idb] that is not part of the sources at hand; an element of the
    sequence is a (round, intra, bytes) triple or carries an error. *)
Record TxnRow := mkTxnRow {
  Round : Z;
  Intra : Z;
  TxnBytes : list Byte.byte;
  RowError : option Error
}.

(** What [rows.Scan] returns for one row of the result set. *)
Inductive ScanResult :=
| Scanned (round intra : Z) (txnbytes : list Byte.byte)
| ScanFailed (e : Error).

(** A [*sql.Rows]: the rows for which [rows.Next()] is true, and the error
    [rows.Err()] would report once [rows.Next()] is false, if reading
    stopped on one. *)
Record Rows := mkRows {
  scans : list ScanResult;
  iterErr : option Error
}.

Definition scanRow (r : ScanResult) : TxnRow :=
  match r with
  | Scanned round intra txnbytes => mkTxnRow round intra txnbytes None
  | ScanFailed e => mkTxnRow 0 0 [] (Some e)
  end.

(** The loop of [yieldTxnsThread]; the result is what is sent on the
    channel before it is closed.  [done k] tells whether the [select] of
    the k-th iteration takes the [<-ctx.Done()] case.  Each [break] stands
    inside the [select] and leaves the [select] only, so after either case
    the [for] goes on to [rows.Next()]. *)
Fixpoint yieldLoop (done : nat → bool) (k : nat) (rs : list ScanResult)
    : list TxnRow :=
  match rs with
  | [] => []
  | r :: rs' =>
      let row := scanRow r in
      if done k then yieldLoop done (S k) rs'
      else
        match RowError row with
        | Some _ => row :: yieldLoop done (S k) rs'
        | None => row :: yieldLoop done (S k) rs'
        end
  end.

Definition yieldTxnsThread (done : nat → bool) (rows : Rows) : list TxnRow :=
  yieldLoop done 0 (scans rows).

(** [YieldTxns], given what [QueryContext] returned. *)
Definition YieldTxns (done : nat → bool) (query : Res Rows) : list TxnRow :=
  match query with
  | Err e => [mkTxnRow 0 0 [] (Some e)]
  | Ok rows => yieldTxnsThread done rows
  end.

Definition notDone : nat → bool := λ _, false.

(** ** What the fee accounting nets to *)

(** The net amount the fee accounting of [stxn] moves to address [x], when
    the fee sink is [sink] and the rewards pool is [pool]. *)
Definition feeNet (stxn : SignedTxnInBlock) (sink pool x : Address) : Z :=
  (if bool_decide (x = Sender stxn) then SenderRewards stxn - Fee stxn else 0)
  + (if bool_decide (x = sink) then Fee stxn else 0)
  - (if bool_decide (x = pool) then SenderRewards stxn else 0).

(** The addresses the fee accounting stores a delta for. *)
Definition feeTouches (stxn : SignedTxnInBlock) (sink pool x : Address) : bool :=
  bool_decide (x = Sender stxn) || bool_decide (x = sink)
  || (bool_decide (SenderRewards stxn ≠ 0) && bool_decide (x = pool)).

(** ** Test data *)

Module Sample.

Definition A : Address := 1%N.
Definition B : Address := 2%N.
Definition C : Address := 3%N.
Definition sink : Address := 100%N.
Definition pool : Address := 101%N.

Definition header : Block := mkBlock sink pool 0.

(** A store whose watermark is round 4. *)
Definition store (holdings : gmap (Address * Z) HoldingRow) : Store :=
  mkStore ∅ ∅ holdings (Some (mkImportState 4))
    (<[0 := header]> (<[1 := header]> (<[2 := header]> (<[5 := header]> ∅)))).

(** An engine in round 5 with the given batch. *)
Definition engine (u : RoundUpdates) : AccountingState :=
  mkAccountingState ∅ 5 u sink pool 0 0.

Definition closes (l : list AssetClose) : RoundUpdates :=
  mkRoundUpdates ∅ [] [] [] l [].

Definition destroys (l : list Z) : RoundUpdates :=
  mkRoundUpdates ∅ [] [] [] [] l.

Definition freezes (l : list FreezeUpdate) : RoundUpdates :=
  mkRoundUpdates ∅ [] [] l [] [].

End Sample.

(** ** Sample transactions and a decoder for them *)

Module Txns.

Import Sample.

Definition supply (total : Z) : AssetParams :=
  mkAssetParams total 0 false "" "" "" 0 0 0 0 0.

Definition pay (sender : Address) (fee amount : Z) (receiver : Address)
    : SignedTxnInBlock :=
  mkStxn sender fee "pay" amount receiver 0 0 zeroParams 0 0 0 0 0 0 0 false
    0 0 0 0.

Definition acfg (sender : Address) (fee target : Z) (p : AssetParams)
    : SignedTxnInBlock :=
  mkStxn sender fee "acfg" 0 0 0 target p 0 0 0 0 0 0 0 false 0 0 0 0.

Definition other (ty : string) (sender : Address) (fee senderRewards : Z)
    : SignedTxnInBlock :=
  mkStxn sender fee ty 0 0 0 0 zeroParams 0 0 0 0 0 0 0 false
    senderRewards 0 0 0.

(** One byte names one transaction; anything else does not decode. *)
Definition decode (txnbytes : list Byte.byte) : option SignedTxnInBlock :=
  match txnbytes with
  | [Byte.x01] => Some (pay A 10 200 B)
  | [Byte.x02] => Some (acfg A 10 0 (supply 100))
  | [Byte.x03] => Some (acfg B 10 0 (supply 50))
  | [Byte.x04] => Some (acfg A 10 0 (supply (2 ^ 63)))
  | [Byte.x05] => Some (acfg A 10 0 zeroParams)
  | [Byte.x06] => Some (other "appl" A 10 3)
  | _ => None
  end.

End Txns.

(** ** Measures of a batch *)

(** The sum of the algo deltas of a batch. *)
Definition algoTotal (m : gmap Address Z) : Z := map_fold (λ _ v s, v + s) 0 m.

(** The sum of the holding deltas a batch records for one asset. *)
Definition assetTotal (assetId : Z) (l : list AssetUpdate) : Z :=
  foldr (λ au s, if bool_decide (au_AssetId au = assetId) then au_Delta au + s else s)
    0 l.

(** Equality of what two integers are as 64-bit words. *)
Definition eqm64 (x y : Z) : Prop := x mod 2 ^ 64 = y mod 2 ^ 64.

(** The round context of the engine and its counter. *)
Definition contextOf (a : AccountingState) : Z * Address * Address * Z * Z :=
  (currentRound a, feeAddr a, rewardAddr a, rewardsLevel a, txnCounter a).

(** Every address with an algo delta in the batch of [a] has one in the
    batch of [a']. *)
Definition algoGrows (a a' : AccountingState) : Prop :=
  ∀ x, is_Some (AlgoUpdates (updates a) !! x) →
       is_Some (AlgoUpdates (updates a') !! x).

(** The algo deltas of the pending batch cancel out, as 64-bit words. *)
Definition algoBalanced (a : AccountingState) : Prop :=
  eqm64 (algoTotal (AlgoUpdates (updates a))) 0.

(** ** Measures of the store *)

(** The amount held under a key of [account_asset]; no row counts as 0. *)
Definition holdingAmount (t : gmap (Address * Z) HoldingRow) (k : Address * Z) : Z :=
  default 0 (amount <$> t !! k).

(** The sum of the deltas a list of asset updates has for one key. *)
Definition holdingDelta (k : Address * Z) (l : list AssetUpdate) : Z :=
  foldr (λ au s,
           if bool_decide ((au_Addr au, au_AssetId au) = k) then au_Delta au + s
           else s) 0 l.

(** The balance of an account; no row counts as 0. *)
Definition balance (t : gmap Address AccountRow) (addr : Address) : Z :=
  default 0 (microalgos <$> t !! addr).

(** [P] is kept by every statement of the round commit and by the write
    of the watermark. *)
Definition commitInvariant (P : Store → Prop) : Prop :=
  (∀ rb x tx, P tx → P (Sql.setalgo rb x tx)) ∧
  (∀ x tx, P tx → P (Sql.setacfg x tx)) ∧
  (∀ x tx, P tx → P (Sql.seta x tx)) ∧
  (∀ x tx, P tx → P (Sql.fr x tx)) ∧
  (∀ x tx tx', P tx → Sql.acs x tx = Ok tx' → P tx') ∧
  (∀ x tx, P tx → P (Sql.acd x tx)) ∧
  (∀ x tx, P tx → P (Sql.ads x tx)) ∧
  (∀ v tx, P tx → P (with_metastate_state v tx)).

(** ** More sample transactions *)

Module Transfers.

Import Sample.

(** A clawback of 50 units of asset 7 from A to B, sent by C, closing A's
    holding to C. *)
Definition clawback : SignedTxnInBlock :=
  mkStxn C 10 "axfer" 0 0%N 0%N 0 zeroParams 7 50 A B C 0%N 0 false 0 0 0 0.

Definition decode (txnbytes : list Byte.byte) : option SignedTxnInBlock :=
  match txnbytes with
  | [Byte.x07] => Some clawback
  | _ => Txns.decode txnbytes
  end.

End Transfers.

(** ** The import driver

    The loop of [updateAccounting] over the rows of the cursor and the
    [act.Close()] after it.  [maybeFail] ends the process on an error; the
    run then ends with that error and with engine and store as they are.
    [fails k] is the oracle of the database calls made by the k-th call
    into the engine; the prints are left out. *)

Section Driver.

Variable decode : list Byte.byte → option SignedTxnInBlock.
Variable fails : nat → Step → bool.

(** The flag [--num-rounds-limit]. *)
Variable numRoundsLimit : Z.

Fixpoint accountingLoop (k : nat) (txns : list TxnRow)
    (currentRound roundsSeen : Z) (a : AccountingState) (db : Store)
    : option Error * AccountingState * Store * nat :=
  match txns with
  | [] => (None, a, db, k)
  | txn :: rest =>
      let changed := bool_decide (Round txn ≠ currentRound) in
      let roundsSeen' :=
        if changed then Int.int64 (roundsSeen + 1) else roundsSeen in
      let currentRound' := if changed then Round txn else currentRound in
      if changed && bool_decide (numRoundsLimit ≠ 0)
         && bool_decide (numRoundsLimit < roundsSeen')
      then (None, a, db, k)
      else
        match AddTransaction decode (fails k) (Round txn) (Intra txn)
                (TxnBytes txn) a db with
        | (Some e, a', db') => (Some e, a', db', k)
        | (None, a', db') =>
            accountingLoop (S k) rest currentRound' roundsSeen' a' db'
        end
  end.

(** From [act := accounting.New(db)] to the end of [updateAccounting],
    given the rows the cursor delivers. *)
Definition runAccounting (txns : list TxnRow) (db : Store)
    : option Error * AccountingState * Store :=
  match accountingLoop 0 txns 0 0 New db with
  | (Some e, a, db', _) => (Some e, a, db')
  | (None, a, db', k) => Close (fails k) a db'
  end.

End Driver.

(** ** Genesis *)

(** Modelled from the spec: [types.Genesis] is declared in the [types]
    package, which is not part of the sources at hand.  An allocation has
    an address in text form and an account state, of which [LoadGenesis]
    reads the balance and whether it has asset parameters or holdings. *)
Record GenesisAllocation := mkGenesisAllocation {
  ga_Address : string;
  ga_MicroAlgos : Z;
  ga_AssetParams : gmap Z AssetParams;
  ga_Assets : gmap Z HoldingRow
}.

Inductive GenesisStep :=
| GBegin
| GPrepare
| GExec (ai : nat)
| GCommit.

Inductive GenesisError :=
| GStorage (s : GenesisStep)
| GUnhandledAsset (ai : nat)
| GDuplicate (ai : nat).

Section Genesis.

(** [atypes.DecodeAddress]: the address and whether decoding went well.
    [LoadGenesis] overwrites the error before looking at it. *)
Variable DecodeAddress : string → Address * bool.

Variable gfails : GenesisStep → bool.

Definition allocAddr (alloc : GenesisAllocation) : Address :=
  (DecodeAddress (ga_Address alloc)).1.

(** The loop over [genesis.Allocation].  The statement is a plain INSERT
    into [account]: it fails on an address that has a row. *)
Fixpoint genesisLoop (ai : nat) (allocs : list GenesisAllocation) (tx : Store)
    : GenesisError + Store :=
  match allocs with
  | [] => inr tx
  | alloc :: rest =>
      let addr := allocAddr alloc in
      if bool_decide (0 < size (ga_AssetParams alloc))%nat
         || bool_decide (0 < size (ga_Assets alloc))%nat
      then inl (GUnhandledAsset ai)
      else if gfails (GExec ai) then inl (GStorage (GExec ai))
      else
        match account tx !! addr with
        | Some _ => inl (GDuplicate ai)
        | None =>
            genesisLoop (S ai) rest
              (with_account (<[addr := mkAccountRow (ga_MicroAlgos alloc) 0]>) tx)
        end
  end.

Definition LoadGenesis (allocs : list GenesisAllocation) (db : Store)
    : option GenesisError * Store :=
  if gfails GBegin then (Some (GStorage GBegin), db) else
  if gfails GPrepare then (Some (GStorage GPrepare), db) else
  match genesisLoop 0 allocs db with
  | inl e => (Some e, db)
  | inr tx => if gfails GCommit then (Some (GStorage GCommit), db) else (None, tx)
  end.

End Genesis.

Definition hasAssets (alloc : GenesisAllocation) : Prop :=
  ga_AssetParams alloc ≠ ∅ ∨ ga_Assets alloc ≠ ∅.

(** ** Listing accounts *)

(** Modelled from the spec: [models.Account] belongs to the SDK, outside
    the sources at hand; these are the fields [GetAccounts] fills. *)
Record Account := mkAccount {
  acc_Round : Z;
  acc_Address : string;
  acc_AmountWithoutPendingRewards : Z
}.

Definition maxAccountsLimit : Z := 1000.

Inductive ListStep :=
| LBegin
| LReadRound
| LQuery
| LScan (k : nat).

Inductive ListError :=
| LStorage (s : ListStep)
| LNoRows
| LNegativeLimit
| LNotUint64 (k : nat).

(** The order of [ORDER BY addr]: byte strings of one length compare as
    the numbers they spell. *)
Definition addrLe (x y : Address * AccountRow) : Prop := (x.1 ≤ y.1)%N.

#[global] Instance addrLe_dec x y : Decision (addrLe x y).
Proof. unfold addrLe. apply _. Defined.

(** SELECT ... FROM account WHERE addr > $1 ORDER BY addr LIMIT $2 *)
Definition accountsPage (greaterThan : Address) (limit : Z)
    (t : gmap Address AccountRow) : list (Address * AccountRow) :=
  take (Z.to_nat limit)
    (merge_sort addrLe
       (filter (λ kv, (greaterThan < kv.1)%N) (map_to_list t))).

(** A column value that [rows.Scan] can store into a [uint64]. *)
Definition isUint64 (x : Z) : bool := bool_decide (0 ≤ x) && bool_decide (x < 2 ^ 64).

(** [if limit == 0 || limit > maxAccountsLimit { limit = maxAccountsLimit }] *)
Definition clampLimit (limit : Z) : Z :=
  if bool_decide (limit = 0) || bool_decide (maxAccountsLimit < limit)
  then maxAccountsLimit else limit.

Section GetAccounts.

(** [atypes.Address.String]. *)
Variable addrString : Address → string.

Variable lfails : ListStep → bool.

Definition toAccount (round : Z) (kv : Address * AccountRow) : Account :=
  mkAccount round (addrString kv.1) (microalgos kv.2).

(** The loop over the rows of the account query.  An address read back
    has 32 bytes by the representation of addresses, so the length test
    of the source passes. *)
Fixpoint scanAccounts (round : Z) (k : nat) (rows : list (Address * AccountRow))
    (out : list Account) : ListError + list Account :=
  match rows with
  | [] => inr out
  | kv :: rest =>
      if lfails (LScan k) then inl (LStorage (LScan k))
      else if negb (isUint64 (microalgos kv.2) && isUint64 (rewardsbase kv.2))
      then inl (LNotUint64 k)
      else scanAccounts round (S k) rest (out ++ [toAccount round kv])
  end.

Definition GetAccounts (greaterThan : Address) (limit : Z) (db : Store)
    : ListError + list Account :=
  let limit := clampLimit limit in
  if lfails LBegin then inl (LStorage LBegin)
  else if lfails LReadRound then inl (LStorage LReadRound)
  else
    match metastate_state db with
    | None => inl LNoRows
    | Some istate =>
        if negb (isUint64 (AccountRound istate)) then inl (LNotUint64 0)
        else if lfails LQuery then inl (LStorage LQuery)
        else if bool_decide (limit < 0) then inl LNegativeLimit
        else
          scanAccounts (AccountRound istate) 0
            (accountsPage greaterThan limit (account db)) []
    end.

End GetAccounts.

(** ** The query of [TransactionsForAddress] *)

(** The values bound to the placeholders, [[]interface{}] in the source:
    an address, a round or a time. *)
Inductive SqlArg :=
| ArgBytes (a : Address)
| ArgUint64 (n : Z)
| ArgTime (t : Z).

(** A [time.Time] is the instant counted from the zero [time.Time], so
    [IsZero] is being 0. *)
Definition timeIsZero (t : Z) : bool := bool_decide (t = 0).

(** [fmt.Sprintf] of a format that ends in [$%d]; the format is given up
    to the dollar sign. *)
Definition sprintfDollar (format : string) (n : nat) : string :=
  format +:+ pretty n.

Record WhereState := mkWhere {
  whereParts : list string;
  whereArgs : list SqlArg;
  partNumber : nat;
  joinHeader : bool
}.

(** [whereParts = append(...); whereArgs = append(...); partNumber++] *)
Definition appendPart (format : string) (arg : SqlArg) (w : WhereState)
    : WhereState :=
  mkWhere (whereParts w ++ [sprintfDollar format (partNumber w)])
          (whereArgs w ++ [arg]) (S (partNumber w)) (joinHeader w).

Definition setJoinHeader (w : WhereState) : WhereState :=
  mkWhere (whereParts w) (whereArgs w) (partNumber w) true.

Definition buildWhere (addr : Address) (firstRound lastRound : Z)
    (beforeTime afterTime : Z) : WhereState :=
  let w := mkWhere ["p.addr = $1"] [ArgBytes addr] 2 false in
  let w :=
    if bool_decide (firstRound ≠ 0)
    then appendPart "t.round >= $" (ArgUint64 firstRound) w else w in
  let w :=
    if bool_decide (lastRound ≠ 0)
    then appendPart "t.round <= $" (ArgUint64 lastRound) w else w in
  let w :=
    if negb (timeIsZero beforeTime)
    then setJoinHeader (appendPart "h.realtime < $" (ArgTime beforeTime) w)
    else w in
  if negb (timeIsZero afterTime)
  then setJoinHeader (appendPart "h.realtime > $" (ArgTime afterTime) w)
  else w.

(** [strings.Join] *)
Fixpoint joinStrings (sep : string) (l : list string) : string :=
  match l with
  | [] => ""
  | [x] => x
  | x :: rest => x +:+ sep +:+ joinStrings sep rest
  end.

Definition addressQuery (w : WhereState) : string :=
  let whereStr := joinStrings " AND " (whereParts w) in
  if joinHeader w
  then "SELECT t.round, t.intra, t.txnbytes FROM txn t JOIN txn_participation p ON t.round = p.round AND t.intra = p.intra JOIN block_header h ON t.round = h.round WHERE " +:+ whereStr
  else "SELECT t.round, t.intra, t.txnbytes FROM txn t JOIN txn_participation p ON t.round = p.round AND t.intra = p.intra WHERE " +:+ whereStr.

(** The condition texts, up to the placeholder number. *)
Definition conditions : list string :=
  ["p.addr = $"; "t.round >= $"; "t.round <= $"; "h.realtime < $";
   "h.realtime > $"].

Section TransactionsForAddress.

(** [db.db.QueryContext] *)
Variable QueryContext : string → list SqlArg → Res Rows.

Definition TransactionsForAddress (done : nat → bool) (addr : Address)
    (limit firstRound lastRound : Z) (beforeTime afterTime : Z) : list TxnRow :=
  let w := buildWhere addr firstRound lastRound beforeTime afterTime in
  match QueryContext (addressQuery w) (whereArgs w) with
  | Err e => [mkTxnRow 0 0 [] (Some e)]
  | Ok rows => yieldTxnsThread done rows
  end.

End TransactionsForAddress.

(** ** Form values of the HTTP API *)

Section Forms.

(** The error type of [strconv]. *)
Variable E : Type.

(** [strconv.ParseUint(s, 10, 64)] *)
Variable ParseUint : string → Z * option E.

(** [formUint64] over [r.Form]. *)
Fixpoint formUint64 (form : gmap string (list string))
    (keySynonyms : list string) (defaultValue : Z) : Z * option E :=
  match keySynonyms with
  | [] => (defaultValue, None)
  | key :: rest =>
      match form !! key with
      | None => formUint64 form rest defaultValue
      | Some svalues =>
          match last svalues with
          | None => formUint64 form rest defaultValue
          | Some svalue =>
              if bool_decide (svalue = "")
              then formUint64 form rest defaultValue
              else ParseUint svalue
          end
      end
  end.

End Forms.

(** The value the form gives for a key: the last one sent, if it is not
    the empty string. *)
Definition formValue (form : gmap string (list string)) (key : string)
    : option string :=
  match form !! key with
  | None => None
  | Some svalues =>
      match last svalues with
      | None => None
      | Some svalue => if bool_decide (svalue = "") then None else Some svalue
      end
  end.

(** ** Sample genesis and accounts *)

Module Genesis.

Definition decodeAddress (s : string) : Address * bool :=
  if bool_decide (s = "AAAA") then (1%N, true)
  else if bool_decide (s = "BBBB") then (2%N, true)
  else (0%N, false).

Definition allocs : list GenesisAllocation :=
  [mkGenesisAllocation "AAAA" 1000 ∅ ∅; mkGenesisAllocation "BBBB" 500 ∅ ∅].

Definition withAsset : list GenesisAllocation :=
  [mkGenesisAllocation "AAAA" 1000 ∅ ∅;
   mkGenesisAllocation "BBBB" 500 ∅ {[7 := mkHoldingRow 1 false]}].

Definition noFailure : GenesisStep → bool := λ _, false.

Definition empty : Store := mkStore ∅ ∅ ∅ None ∅.

Definition addrString (a : Address) : string := pretty a.

Definition noListFailure : ListStep → bool := λ _, false.

End Genesis.

(** * Properties *)

(** ** Integer facts *)

Lemma uint64_small x : 0 ≤ x < 2 ^ 64 → Int.uint64 x = x.
Proof. intros H. unfold Int.uint64. apply Z.mod_small. exact H. Qed.

Lemma int64_small x : - 2 ^ 63 ≤ x < 2 ^ 63 → Int.int64 x = x.
Proof. intros H. unfold Int.int64. rewrite Z.mod_small; lia. Qed.

Lemma int64_add_l a b : Int.int64 (Int.int64 a + b) = Int.int64 (a + b).
Proof.
  unfold Int.int64. f_equal.
  replace ((a + 2 ^ 63) mod 2 ^ 64 - 2 ^ 63 + b + 2 ^ 63)
    with ((a + 2 ^ 63) mod 2 ^ 64 + b) by lia.
  rewrite Zplus_mod_idemp_l. f_equal. lia.
Qed.

Lemma int64_add_r a b : Int.int64 (a + Int.int64 b) = Int.int64 (a + b).
Proof. rewrite Z.add_comm, int64_add_l. f_equal. lia. Qed.

Lemma int64_opp a : Int.int64 (- Int.int64 a) = Int.int64 (- a).
Proof.
  unfold Int.int64. f_equal.
  replace (- ((a + 2 ^ 63) mod 2 ^ 64 - 2 ^ 63) + 2 ^ 63)
    with (2 ^ 64 - (a + 2 ^ 63) mod 2 ^ 64) by lia.
  rewrite Zminus_mod_idemp_r. f_equal. lia.
Qed.

Lemma int64_add_l3 a b c : Int.int64 (Int.int64 a + b + c) = Int.int64 (a + b + c).
Proof. rewrite <- Z.add_assoc, int64_add_l. f_equal; lia. Qed.

Lemma int64_add_l4 a b c d :
  Int.int64 (Int.int64 a + b + c + d) = Int.int64 (a + b + c + d).
Proof. rewrite <- !Z.add_assoc, int64_add_l. f_equal; lia. Qed.

Lemma negInt64_eq x : negInt64 x = Int.int64 (- x).
Proof. apply int64_opp. Qed.

Lemma uint64_add_l a b : Int.uint64 (Int.uint64 a + b) = Int.uint64 (a + b).
Proof. unfold Int.uint64. apply Zplus_mod_idemp_l. Qed.

Lemma uint64_add_r a b : Int.uint64 (a + Int.uint64 b) = Int.uint64 (a + b).
Proof. unfold Int.uint64. apply Zplus_mod_idemp_r. Qed.

(** Strips the reductions inside a chain of [int64] additions. *)
Ltac int64_norm :=
  rewrite ?negInt64_eq;
  repeat rewrite int64_add_r;
  repeat (rewrite int64_add_l || rewrite int64_add_l3 || rewrite int64_add_l4).

(** ** The round commit *)

Lemma bind_Ok {A B} (r : Res A) (k : A → Res B) (b : B) :
  r ≫= k = Ok b → ∃ a, r = Ok a ∧ k a = Ok b.
Proof. destruct r as [a|e]; [eauto | discriminate]. Qed.

Ltac bind_inv H :=
  let a := fresh "st" in
  let Ha := fresh "Hst" in
  apply bind_Ok in H; destruct H as (a & Ha & H).

Section CommitFacts.

Variable fails : Step → bool.

(** A category that is empty leaves flag and transaction alone; one that
    is not raises the flag. *)
Lemma category_any {X} (xs : list X) c loop st st' :
  category fails xs c loop st = Ok st' →
  (xs = [] ∧ st' = st) ∨ (xs ≠ [] ∧ st'.1 = true).
Proof.
  destruct xs as [|x xs]; simpl; intros H.
  - left. split; congruence.
  - right. split; [done|].
    bind_inv H. bind_inv H. by inversion H.
Qed.

(** The atomic scope: whenever the commit reports an error, the store
    is the one it started from. *)
Lemma CommitRoundAccounting_error_unchanged updates round rewardsBase db e db' :
  CommitRoundAccounting fails updates round rewardsBase db = (Some e, db') →
  db' = db.
Proof.
  unfold CommitRoundAccounting.
  destruct (fails SBegin); [congruence|].
  destruct (commit_body _ _ _ _ _) as [[tx|]|]; try congruence.
  destruct (fails SCommit); congruence.
Qed.

Lemma commit_body_empty round rewardsBase db :
  commit_body fails noUpdates round rewardsBase db = Ok None.
Proof. reflexivity. Qed.

(** A batch with anything in it does not take the plain return, and the
    transaction it hands to [Commit] carries the round as watermark. *)
Lemma commit_body_nonempty updates round rewardsBase db r :
  updates ≠ noUpdates →
  commit_body fails updates round rewardsBase db = Ok r →
  ∃ tx, r = Some tx ∧
        metastate_state tx = Some (mkImportState (Int.int64 round)).
Proof.
  intros Hne H. unfold commit_body in H.
  bind_inv H. apply category_any in Hst as H1.
  bind_inv H. apply category_any in Hst0 as H2.
  bind_inv H. apply category_any in Hst1 as H3.
  bind_inv H. apply category_any in Hst2 as H4.
  bind_inv H. apply category_any in Hst3 as H5.
  bind_inv H. apply category_any in Hst4 as H6.
  assert (st4.1 = true) as Hany.
  { destruct H6 as [[E6 ->]|[_ ?]]; [|done].
    destruct H5 as [[E5 ->]|[_ ?]]; [|done].
    destruct H4 as [[E4 ->]|[_ ?]]; [|done].
    destruct H3 as [[E3 ->]|[_ ?]]; [|done].
    destruct H2 as [[E2 ->]|[_ ?]]; [|done].
    destruct H1 as [[E1 ->]|[_ ?]]; [|done].
    exfalso. apply Hne. destruct updates; simpl in *.
    apply map_to_list_empty_iff in E1. by subst. }
  rewrite Hany in H. simpl in H.
  bind_inv H. destruct (fails SWriteState); [discriminate|].
  inversion H; subst. eexists. split; [done|]. done.
Qed.

End CommitFacts.

(** ** Closures *)

(** [acd] leaves the sender without a row for any asset. *)
Lemma acd_removes_all_of_sender ac tx (assetId : Z) :
  account_asset (Sql.acd ac tx) !! (ac_Sender ac, assetId) = None.
Proof.
  unfold Sql.acd, with_account_asset; simpl.
  apply map_lookup_filter_None. right. intros x _ Hx. by apply Hx.
Qed.

(** A sender whose one row is for the asset being closed: the statements
    move its amount to closeTo and remove the row. *)
Lemma close_own_asset ac tx x :
  Sql.rows_of (ac_Sender ac) (account_asset tx)
    = {[(ac_Sender ac, ac_AssetId ac) := x]} →
  ac_CloseTo ac ≠ ac_Sender ac →
  ∃ tx1,
    Sql.acs ac tx = Ok tx1 ∧
    account_asset (Sql.acd ac tx1) !! (ac_Sender ac, ac_AssetId ac) = None ∧
    amount <$> account_asset (Sql.acd ac tx1) !! (ac_CloseTo ac, ac_AssetId ac)
      = Some (default 0 (amount <$> account_asset tx !! (ac_CloseTo ac, ac_AssetId ac))
              + amount x).
Proof.
  intros Hrows Hne. unfold Sql.acs. rewrite Hrows, map_to_list_singleton.
  eexists. split; [reflexivity|]. split; [apply acd_removes_all_of_sender|].
  unfold Sql.acd, with_account_asset, Sql.add_holding; simpl.
  destruct (account_asset tx !! (ac_CloseTo ac, ac_AssetId ac)) as [r|] eqn:Hr;
    simpl.
  - rewrite (map_lookup_filter_Some_2 _ _ _
               (mkHoldingRow (amount r + amount x) (frozen r)));
      [reflexivity | apply lookup_insert_eq | simpl; congruence].
  - rewrite (map_lookup_filter_Some_2 _ _ _ (mkHoldingRow (amount x) false));
      [reflexivity | apply lookup_insert_eq | simpl; congruence].
Qed.

(** A sender with rows for two assets: the closure statement proposes two
    rows for one key and is rejected, and with it the commit. *)
Example close_two_assets_rejected :
  CommitRoundAccounting never
    (Sample.closes [mkAssetClose Sample.C 7 Sample.A]) 5 0
    (Sample.store (<[(Sample.A, 7) := mkHoldingRow 30 false]>
                     {[(Sample.A, 8) := mkHoldingRow 9 false]}))
  = (Some ECardinality,
     Sample.store (<[(Sample.A, 7) := mkHoldingRow 30 false]>
                      {[(Sample.A, 8) := mkHoldingRow 9 false]})).
Proof. vm_compute. reflexivity. Qed.

(** C1 (the code departs from the claim).  The claim: a closure
    (sender, asset, closeTo) deletes the sender's row for that one asset,
    leaves the sender's rows for other assets, and raises closeTo's holding
    of the asset by the sender's amount of that asset.  Here A holds 30 of
    asset 8 and nothing of asset 7, C holds 5 of asset 7, and the batch
    closes A's asset 7 to C: the commit succeeds, A's row for asset 8 is
    gone, and C's holding of asset 7 has grown by A's 30 units of asset 8. *)
Theorem C1_close_ignores_asset_id :
  let db := Sample.store (<[(Sample.A, 8) := mkHoldingRow 30 false]>
                            {[(Sample.C, 7) := mkHoldingRow 5 false]}) in
  let r := CommitRoundAccounting never
             (Sample.closes [mkAssetClose Sample.C 7 Sample.A]) 5 0 db in
  r.1 = None ∧
  account_asset db !! (Sample.A, 7) = None ∧
  account_asset db !! (Sample.A, 8) = Some (mkHoldingRow 30 false) ∧
  account_asset r.2 !! (Sample.A, 8) = None ∧
  account_asset r.2 !! (Sample.C, 7) = Some (mkHoldingRow 35 false).
Proof. vm_compute. repeat split; reflexivity. Qed.

(** ** Failure of a step *)

(** A failing [Exec] whose error is checked, here the one of the freeze
    statement, aborts the commit. *)
Example freeze_failure_aborts :
  let db := Sample.store {[(Sample.A, 7) := mkHoldingRow 5 false]} in
  CommitRoundAccounting (only (SExec CFreeze 0))
    (Sample.freezes [mkFreezeUpdate Sample.A 7 true]) 5 0 db
  = (Some (EStorage (SExec CFreeze 0)), db).
Proof. vm_compute. reflexivity. Qed.

(** Failed deletions of a destruction go unnoticed, however many: the
    commit succeeds, deletes nothing and advances the watermark. *)
Lemma destroy_each_all_fail k l tx : destroy_each failDestroy k l tx = tx.
Proof. revert k. induction l as [|x l IH]; intros k; simpl; [done|apply IH]. Qed.

Lemma destroy_failures_commit l round rewardsBase db :
  l ≠ [] →
  CommitRoundAccounting failDestroy (Sample.destroys l) round rewardsBase db
  = (None, with_metastate_state (Some (mkImportState (Int.int64 round))) db).
Proof.
  intros Hl. destruct l as [|x l]; [done|].
  unfold CommitRoundAccounting, commit_body. cbn -[destroy_each].
  rewrite map_to_list_empty. cbn -[destroy_each].
  rewrite destroy_each_all_fail. by destruct (metastate_state db).
Qed.

(** C2 (the code departs from the claim).  The claim: a failure of any
    step of the commit, the deletion of holdings for an asset destruction
    included, makes the commit return an error and persist nothing.  Here
    the batch destroys asset 7 and the [Exec] of the deletion fails: the
    commit returns no error, A's holding of asset 7 is still there, and the
    watermark has moved from 4 to 5. *)
Theorem C2_destroy_failure_is_dropped :
  let db := Sample.store {[(Sample.A, 7) := mkHoldingRow 5 false]} in
  let r := CommitRoundAccounting (only (SExec CDestroy 0))
             (Sample.destroys [7]) 5 0 db in
  r.1 = None ∧
  account_asset r.2 !! (Sample.A, 7) = Some (mkHoldingRow 5 false) ∧
  metastate_state db = Some (mkImportState 4) ∧
  metastate_state r.2 = Some (mkImportState 5).
Proof. vm_compute. repeat split; reflexivity. Qed.

(** ** Watermark and batch after a commit *)

(** C4 (counterexample to the claim as stated).  With an empty batch the
    engine's [commitRound] for round 5 succeeds and the persisted watermark
    is still 4. *)
Lemma C4_empty_batch_keeps_watermark :
  let db := Sample.store ∅ in
  let r := commitRound never (Sample.engine noUpdates) db in
  r.1.1 = None ∧
  currentRound (Sample.engine noUpdates) = 5 ∧
  metastate_state r.2 = Some (mkImportState 4).
Proof. vm_compute. repeat split; reflexivity. Qed.

(** C4 (amended).  After [commitRound] returns successfully the engine's
    batch is empty; if the batch was not empty and the round is below
    2^63, the persisted watermark equals the round. *)
Theorem C4_commit_sets_watermark fails (a a' : AccountingState) (db db' : Store) :
  updates a ≠ noUpdates →
  0 ≤ currentRound a < 2 ^ 63 →
  commitRound fails a db = (None, a', db') →
  metastate_state db' = Some (mkImportState (currentRound a)) ∧
  updates a' = noUpdates.
Proof.
  intros Hne Hround H. unfold commitRound, CommitRoundAccounting in H.
  destruct (fails SBegin); [discriminate|].
  destruct (commit_body _ _ _ _ _) as [r|e] eqn:Hbody; [|discriminate].
  apply commit_body_nonempty in Hbody as (tx & -> & Htx); [|done].
  destruct (fails SCommit); [discriminate|].
  inversion H; subst. split; [|done].
  rewrite Htx. by rewrite int64_small by lia.
Qed.

Lemma C4_commit_sets_watermark_witness :
  let a := Sample.engine (Sample.destroys [7]) in
  let db := Sample.store {[(Sample.A, 7) := mkHoldingRow 5 false]} in
  let r := commitRound never a db in
  metastate_state r.2 = Some (mkImportState 5) ∧ updates r.1.2 = noUpdates.
Proof.
  apply (C4_commit_sets_watermark never
           (Sample.engine (Sample.destroys [7])) _
           (Sample.store {[(Sample.A, 7) := mkHoldingRow 5 false]}) _).
  - discriminate.
  - simpl. lia.
  - vm_compute. reflexivity.
Defined.

(** ** The empty batch *)

(** C7 (counterexample to the claim as stated).  The transaction is opened
    before the batch is inspected: when [Begin] fails, the commit of an
    empty batch returns that error instead of success. *)
Lemma C7_empty_batch_begin_failure :
  CommitRoundAccounting (only SBegin) noUpdates 5 0 (Sample.store ∅)
  = (Some (EStorage SBegin), Sample.store ∅).
Proof. vm_compute. reflexivity. Qed.

(** C7 (amended).  With an empty batch the commit never writes: the store,
    watermark included, is what it was, whatever fails; and when [Begin]
    succeeds the commit returns success. *)
Theorem C7_empty_batch_writes_nothing fails (round rewardsBase : Z) (db : Store) :
  (CommitRoundAccounting fails noUpdates round rewardsBase db).2 = db ∧
  (fails SBegin = false →
   CommitRoundAccounting fails noUpdates round rewardsBase db = (None, db)).
Proof.
  unfold CommitRoundAccounting. rewrite commit_body_empty.
  destruct (fails SBegin); split; done.
Qed.

Lemma C7_empty_batch_writes_nothing_witness :
  CommitRoundAccounting never noUpdates 5 0 (Sample.store ∅)
  = (None, Sample.store ∅).
Proof.
  apply (C7_empty_batch_writes_nothing never 5 0 (Sample.store ∅)).
  reflexivity.
Defined.

(** ** The engine: frame facts *)

Section EngineFacts.

Variable decode : list Byte.byte → option SignedTxnInBlock.
Variable fails : Step → bool.

Lemma feeAccounting_frame stxn a :
  txnCounter (feeAccounting stxn a) = txnCounter a ∧
  feeAddr (feeAccounting stxn a) = feeAddr a ∧
  rewardAddr (feeAccounting stxn a) = rewardAddr a ∧
  currentRound (feeAccounting stxn a) = currentRound a.
Proof. unfold feeAccounting. case_bool_decide; done. Qed.

Lemma typeAccounting_txnCounter intra stxn a err a' :
  typeAccounting intra stxn a = (err, a') → txnCounter a' = txnCounter a.
Proof.
  unfold typeAccounting, payAccounting, acfgAccounting, axferAccounting.
  intros H.
  repeat (case_bool_decide || case_match);
    simplify_eq; reflexivity.
Qed.

Lemma roundTransition_txnCounter round a db err a' db' :
  roundTransition fails round a db = (err, a', db') →
  txnCounter a' = txnCounter a.
Proof.
  unfold roundTransition, commitRound, initRound, GetBlock. intros H.
  repeat (case_bool_decide || case_match); simplify_eq; try reflexivity.
  all: simpl in *; repeat case_match; simplify_eq; reflexivity.
Qed.

(** Nothing in [AddTransaction] stores to [txnCounter]. *)
Lemma AddTransaction_txnCounter round intra txnbytes a db err a' db' :
  AddTransaction decode fails round intra txnbytes a db = (err, a', db') →
  txnCounter a' = txnCounter a.
Proof.
  unfold AddTransaction. intros H.
  destruct (decode txnbytes) as [stxn|]; [|by simplify_eq].
  destruct (roundTransition fails round a db) as [[[e|] a1] db1] eqn:Ht.
  - simplify_eq. by eapply roundTransition_txnCounter.
  - destruct (typeAccounting _ _ _) as [e a2] eqn:Hty. simplify_eq.
    apply typeAccounting_txnCounter in Hty. rewrite Hty.
    destruct (feeAccounting_frame stxn a1) as [-> _].
    by eapply roundTransition_txnCounter.
Qed.

End EngineFacts.

(** ** Fee accounting *)

Lemma updateAlgo_delta addr d a x :
  algoDelta (AlgoUpdates (updates (updateAlgo addr d a))) x =
  if bool_decide (x = addr)
  then Int.int64 (algoDelta (AlgoUpdates (updates a)) x + d)
  else algoDelta (AlgoUpdates (updates a)) x.
Proof.
  unfold updateAlgo, algoDelta; simpl. case_bool_decide as Hx.
  - subst. by rewrite lookup_insert_eq.
  - by rewrite lookup_insert_ne.
Qed.

(** What the fee accounting does to the delta of every address: the
    sender's goes down by the fee and up by its reward, the fee sink's up
    by the fee, the rewards pool's down by the reward, in [int64]
    arithmetic; deltas of other addresses stay. *)
Lemma feeAccounting_delta stxn a x :
  algoDelta (AlgoUpdates (updates (feeAccounting stxn a))) x =
  if feeTouches stxn (feeAddr a) (rewardAddr a) x
  then Int.int64 (algoDelta (AlgoUpdates (updates a)) x
                  + feeNet stxn (feeAddr a) (rewardAddr a) x)
  else algoDelta (AlgoUpdates (updates a)) x.
Proof.
  unfold feeAccounting, feeTouches, feeNet.
  destruct (bool_decide (SenderRewards stxn ≠ 0)) eqn:Hsr.
  - rewrite !updateAlgo_delta. simpl.
    repeat case_bool_decide; simpl; subst; try congruence;
      try reflexivity; int64_norm; apply (f_equal Int.int64); lia.
  - apply bool_decide_eq_false in Hsr.
    assert (SenderRewards stxn = 0) as -> by lia.
    rewrite !updateAlgo_delta. simpl.
    repeat case_bool_decide; simpl; subst; try congruence;
      try reflexivity; int64_norm; apply (f_equal Int.int64); lia.
Qed.

(** The fee accounting touches the algo deltas only. *)
Lemma feeAccounting_rest stxn a :
  AssetUpdates (updates (feeAccounting stxn a)) = AssetUpdates (updates a) ∧
  AcfgUpdates (updates (feeAccounting stxn a)) = AcfgUpdates (updates a) ∧
  FreezeUpdates (updates (feeAccounting stxn a)) = FreezeUpdates (updates a) ∧
  AssetCloses (updates (feeAccounting stxn a)) = AssetCloses (updates a) ∧
  AssetDestroys (updates (feeAccounting stxn a)) = AssetDestroys (updates a) ∧
  defaultFrozen (feeAccounting stxn a) = defaultFrozen a.
Proof. unfold feeAccounting. case_bool_decide; done. Qed.

(** ** The transaction counter *)

(** C3 (the code departs from the claim).  The claim: the running
    transaction counter grows and, when a transaction is processed, equals
    the number of transactions processed since genesis; it is the c of the
    asset-ID assignment.  Here a fresh engine processes an asset creation
    in round 1 and then one in round 2, both at intra-round index 0: the
    counter is 0 after each, and both creations receive asset ID 1. *)
Theorem C3_txnCounter_never_advances :
  let db := Sample.store ∅ in
  let r1 := AddTransaction Txns.decode never 1 0 [Byte.x02] New db in
  let r2 := AddTransaction Txns.decode never 2 0 [Byte.x03] r1.1.2 r1.2 in
  r1.1.1 = None ∧ r2.1.1 = None ∧
  txnCounter r1.1.2 = 0 ∧ txnCounter r2.1.2 = 0 ∧
  AcfgUpdates (updates r1.1.2)
    = [mkAcfgUpdate 1 Sample.A (Txns.supply 100)] ∧
  AcfgUpdates (updates r2.1.2)
    = [mkAcfgUpdate 1 Sample.B (Txns.supply 50)].
Proof. vm_compute. repeat split; reflexivity. Qed.

(** ** Entering the first round *)

Lemma commitRound_empty fails a db :
  updates a = noUpdates → fails SBegin = false →
  commitRound fails a db = (None, a, db).
Proof.
  intros Hu Hb. unfold commitRound, CommitRoundAccounting.
  rewrite Hu, Hb, commit_body_empty. destruct a; simpl in *. by subst.
Qed.

(** A fresh engine whose first transaction is for a round other than 0
    loads fee sink, rewards pool and rewards level from the header of that
    round before any delta is recorded. *)
Lemma New_roundTransition fails round db b :
  round ≠ 0 → fails SBegin = false → fails SGetBlock = false →
  block_header db !! round = Some b →
  roundTransition fails round New db
  = (None,
     mkAccountingState ∅ round noUpdates (FeeSink b) (RewardsPool b)
       (RewardsLevel b) 0,
     db).
Proof.
  intros Hr Hb Hg Hh. unfold roundTransition.
  rewrite bool_decide_eq_true_2 by (simpl; congruence).
  rewrite commitRound_empty by done.
  unfold initRound, GetBlock. rewrite Hg, Hh. reflexivity.
Qed.

(** For round 0 the fresh engine takes no transition at all, whatever the
    store holds. *)
Lemma New_round_zero fails db : roundTransition fails 0 New db = (None, New, db).
Proof. reflexivity. Qed.

(** C6 (the code departs from the claim).  The claim: the first
    transaction the engine sees, for any round r, r = 0 included, loads
    the round context from the header of r before deltas are applied.
    Here the store has a header for round 0 naming a fee sink and a rewards
    pool, and a fresh engine is given a payment with fee 10 for round 0:
    it succeeds, fee sink and rewards pool of the engine are still the zero
    address, and the fee is credited to the zero address. *)
Theorem C6_round_zero_context_not_loaded :
  let db := Sample.store ∅ in
  let r := AddTransaction Txns.decode never 0 0 [Byte.x01] New db in
  block_header db !! 0 = Some (mkBlock Sample.sink Sample.pool 0) ∧
  r.1.1 = None ∧
  feeAddr r.1.2 = 0%N ∧ rewardAddr r.1.2 = 0%N ∧
  AlgoUpdates (updates r.1.2) !! Sample.sink = None ∧
  AlgoUpdates (updates r.1.2) !! 0%N = Some 10.
Proof. vm_compute. repeat split; reflexivity. Qed.

(** ** Errors of [AddTransaction] *)

Section AddTransactionErrors.

Variable decode : list Byte.byte → option SignedTxnInBlock.
Variable fails : Step → bool.

Lemma roundTransition_error round a db e a' db' :
  roundTransition fails round a db = (Some e, a', db') →
  (∃ e', e = ECommitRound e') ∨ (∃ e', e = EInitRound e').
Proof.
  unfold roundTransition. intros H.
  case_bool_decide; [|discriminate].
  destruct (commitRound fails a db) as [[[e1|] a1] db1].
  - left. exists e1. congruence.
  - destruct (initRound fails round a1 db1) as [a2|e2]; [discriminate|].
    right. exists e2. congruence.
Qed.

(** The type dispatch fails on an unknown type only, and then hands back
    the state it was given. *)
Lemma typeAccounting_error intra stxn a e a' :
  typeAccounting intra stxn a = (Some e, a') →
  e = EUnknownType (TxType stxn) ∧ a' = a.
Proof.
  unfold typeAccounting. intros H.
  repeat case_bool_decide; by simplify_eq.
Qed.

End AddTransactionErrors.

(** C10.  When [AddTransaction] fails on an unknown transaction type, the
    state it leaves is the one after the round transition with the fee
    accounting of the transaction applied: the sender is debited the fee,
    the fee sink credited, and the sender reward booked, in the pending
    batch, and nothing is taken back.  Every decoded transaction whose
    type is none of the five known fails that way once the round transition
    has succeeded.  When the bytes do not decode, engine and store are
    returned as they were. *)
Theorem C10_unknown_type_keeps_fee_deltas
    (decode : list Byte.byte → option SignedTxnInBlock) (fails : Step → bool)
    (round intra : Z) (txnbytes : list Byte.byte)
    (a : AccountingState) (db : Store) :
  (decode txnbytes = None →
   AddTransaction decode fails round intra txnbytes a db = (Some EDecode, a, db)) ∧
  (∀ stxn ty a' db',
     decode txnbytes = Some stxn →
     AddTransaction decode fails round intra txnbytes a db
       = (Some (EUnknownType ty), a', db') →
     ∃ a1,
       roundTransition fails round a db = (None, a1, db') ∧
       a' = feeAccounting stxn a1 ∧
       ∀ x,
         algoDelta (AlgoUpdates (updates a')) x =
         if feeTouches stxn (feeAddr a1) (rewardAddr a1) x
         then Int.int64 (algoDelta (AlgoUpdates (updates a1)) x
                         + feeNet stxn (feeAddr a1) (rewardAddr a1) x)
         else algoDelta (AlgoUpdates (updates a1)) x) ∧
  (∀ stxn a1 db1,
     decode txnbytes = Some stxn →
     roundTransition fails round a db = (None, a1, db1) →
     TxType stxn ∉ ["pay"; "keyreg"; "acfg"; "axfer"; "afrz"] →
     AddTransaction decode fails round intra txnbytes a db
       = (Some (EUnknownType (TxType stxn)), feeAccounting stxn a1, db1)).
Proof.
  split; [|split].
  - intros Hd. unfold AddTransaction. by rewrite Hd.
  - intros stxn ty a' db' Hd H. unfold AddTransaction in H. rewrite Hd in H.
    destruct (roundTransition fails round a db) as [[[e|] a1] db1] eqn:Ht.
    + apply roundTransition_error in Ht as [[e' ->]|[e' ->]]; discriminate.
    + destruct (typeAccounting _ _ _) as [e a2] eqn:Hty.
      inversion H; subst.
      apply typeAccounting_error in Hty as [_ ->].
      exists a1. split; [done|]. split; [done|].
      intros x. apply feeAccounting_delta.
  - intros stxn a1 db1 Hd Ht Hty. unfold AddTransaction, typeAccounting.
    rewrite Hd, Ht. rewrite !not_elem_of_cons in Hty.
    destruct Hty as (? & ? & ? & ? & ? & _).
    by rewrite !bool_decide_eq_false_2 by done.
Qed.

Lemma C10_unknown_type_keeps_fee_deltas_witness :
  let db := Sample.store ∅ in
  let a := Sample.engine noUpdates in
  AddTransaction Txns.decode never 5 0 [Byte.x00] a db = (Some EDecode, a, db) ∧
  ∃ a1,
    roundTransition never 5 a db = (None, a1, db) ∧
    (AddTransaction Txns.decode never 5 0 [Byte.x06] a db).1.2
      = feeAccounting (Txns.other "appl" Sample.A 10 3) a1.
Proof.
  split.
  - apply (C10_unknown_type_keeps_fee_deltas Txns.decode never 5 0 [Byte.x00]).
    reflexivity.
  - destruct (proj1 (proj2 (C10_unknown_type_keeps_fee_deltas Txns.decode never 5 0
                       [Byte.x06] (Sample.engine noUpdates) (Sample.store ∅)))
                (Txns.other "appl" Sample.A 10 3) "appl"
                (AddTransaction Txns.decode never 5 0 [Byte.x06]
                   (Sample.engine noUpdates) (Sample.store ∅)).1.2
                (Sample.store ∅) eq_refl eq_refl)
      as (a1 & Ht & Ha & _).
    exists a1. split; [exact Ht | exact Ha].
Defined.

(** ** Fee first, then the transaction type *)

Lemma updateAlgo_lookup addr d a x :
  AlgoUpdates (updates (updateAlgo addr d a)) !! x =
  if bool_decide (x = addr)
  then Some (Int.int64 (algoDelta (AlgoUpdates (updates a)) x + d))
  else AlgoUpdates (updates a) !! x.
Proof.
  unfold updateAlgo; simpl. case_bool_decide as Hx.
  - subst. by rewrite lookup_insert_eq.
  - by rewrite lookup_insert_ne.
Qed.

(** C8.  For every transaction [AddTransaction] processes successfully,
    the deltas are those of the type-specific accounting applied to the
    state the fee accounting leaves, and the fee accounting has moved the
    sender's delta down by the fee (up by its reward), the fee sink's up by
    the fee and the rewards pool's down by the reward.  A payment with fee
    10, amount 200, no closing amount and no rewards, between distinct
    sender, receiver and fee sink, in a batch without algo deltas so far,
    leaves sender = -210, receiver = +200, fee sink = +10. *)
Theorem C8_fee_accounting_first
    (decode : list Byte.byte → option SignedTxnInBlock) (fails : Step → bool)
    (round intra : Z) (txnbytes : list Byte.byte)
    (a a' : AccountingState) (db db' : Store) (stxn : SignedTxnInBlock) :
  decode txnbytes = Some stxn →
  AddTransaction decode fails round intra txnbytes a db = (None, a', db') →
  ∃ a1,
    roundTransition fails round a db = (None, a1, db') ∧
    (∀ x,
       algoDelta (AlgoUpdates (updates (feeAccounting stxn a1))) x =
       if feeTouches stxn (feeAddr a1) (rewardAddr a1) x
       then Int.int64 (algoDelta (AlgoUpdates (updates a1)) x
                       + feeNet stxn (feeAddr a1) (rewardAddr a1) x)
       else algoDelta (AlgoUpdates (updates a1)) x) ∧
    typeAccounting intra stxn (feeAccounting stxn a1) = (None, a') ∧
    (TxType stxn = "pay" → Fee stxn = 10 → Amount stxn = 200 →
     ClosingAmount stxn = 0 → SenderRewards stxn = 0 →
     ReceiverRewards stxn = 0 → CloseRewards stxn = 0 →
     AlgoUpdates (updates a1) = ∅ →
     Sender stxn ≠ Receiver stxn → Sender stxn ≠ feeAddr a1 →
     Receiver stxn ≠ feeAddr a1 →
     AlgoUpdates (updates a') !! Sender stxn = Some (-210) ∧
     AlgoUpdates (updates a') !! Receiver stxn = Some 200 ∧
     AlgoUpdates (updates a') !! feeAddr a1 = Some 10).
Proof.
  intros Hd H. unfold AddTransaction in H. rewrite Hd in H.
  destruct (roundTransition fails round a db) as [[[e|] a1] db1] eqn:Ht;
    [discriminate|].
  destruct (typeAccounting _ _ _) as [e a2] eqn:Hty.
  inversion H; subst. exists a1.
  split; [done|]. split; [intros x; apply feeAccounting_delta|].
  split; [done|].
  intros Hpay Hfee Hamt Hclose Hsr Hrr Hcr Hempty Hsr' Hsf Hrf.
  unfold typeAccounting in Hty. rewrite Hpay in Hty. simpl in Hty.
  inversion Hty; subst a'. clear Hty H.
  unfold payAccounting, feeAccounting.
  rewrite Hfee, Hamt, Hclose, Hsr, Hrr, Hcr.
  change (Int.int64 200) with 200.
  rewrite !(bool_decide_eq_false_2 (0 ≠ 0)) by (intros ?; done).
  rewrite (bool_decide_eq_true_2 (200 ≠ 0)) by done.
  change (feeAddr (updateAlgo (Sender stxn) (negInt64 10) a1)) with (feeAddr a1).
  rewrite !updateAlgo_lookup, !updateAlgo_delta.
  unfold algoDelta. rewrite Hempty, !lookup_empty.
  repeat case_bool_decide; try congruence; repeat split; reflexivity.
Qed.

Lemma C8_fee_accounting_first_witness :
  let r := AddTransaction Txns.decode never 5 0 [Byte.x01]
             (Sample.engine noUpdates) (Sample.store ∅) in
  AlgoUpdates (updates r.1.2) !! Sample.A = Some (-210) ∧
  AlgoUpdates (updates r.1.2) !! Sample.B = Some 200 ∧
  AlgoUpdates (updates r.1.2) !! Sample.sink = Some 10.
Proof.
  destruct (C8_fee_accounting_first Txns.decode never 5 0 [Byte.x01]
              (Sample.engine noUpdates)
              (AddTransaction Txns.decode never 5 0 [Byte.x01]
                 (Sample.engine noUpdates) (Sample.store ∅)).1.2
              (Sample.store ∅) (Sample.store ∅)
              (Txns.pay Sample.A 10 200 Sample.B) eq_refl eq_refl)
    as (a1 & Ht & _ & _ & Hscenario).
  assert (a1 = Sample.engine noUpdates) as ->.
  { change (roundTransition never 5 (Sample.engine noUpdates) (Sample.store ∅))
      with (@None Error, Sample.engine noUpdates, Sample.store ∅) in Ht.
    congruence. }
  apply Hscenario; try reflexivity; discriminate.
Defined.

(** ** Asset creation *)

Lemma acfgAssetId_create intra stxn a :
  ConfigAsset stxn = 0 →
  acfgAssetId intra stxn a = Int.uint64 (txnCounter a + intra + 1).
Proof.
  intros Hc. unfold acfgAssetId.
  rewrite bool_decide_eq_true_2 by done.
  rewrite uint64_add_l, <- Z.add_assoc, (Z.add_comm (Int.uint64 intra)).
  rewrite Z.add_assoc, uint64_add_r. f_equal; lia.
Qed.

(** C5 (the code departs from the claim).  The claim: a creation with
    nonzero total supply T is given asset ID c + i + 1 and a holding delta
    crediting the creator with exactly T.  Here the total supply is 2^63,
    the intra-round index 0 and the counter 0: the asset ID is 1, and the
    holding delta recorded for the creator is -2^63. *)
Theorem C5_large_supply_wraps :
  let r := AddTransaction Txns.decode never 5 0 [Byte.x04]
             (Sample.engine noUpdates) (Sample.store ∅) in
  Txns.decode [Byte.x04]
    = Some (Txns.acfg Sample.A 10 0 (Txns.supply (2 ^ 63))) ∧
  r.1.1 = None ∧
  AssetUpdates (updates r.1.2) = [mkAssetUpdate Sample.A 1 (- 2 ^ 63) false].
Proof. vm_compute. repeat split; reflexivity. Qed.

(** Below 2^63 the creation does what is expected of it.  An
    asset-configuration transaction with target asset ID 0, processed at
    intra-round index i with the counter at c, succeeds once the round
    transition has; its asset ID is c + i + 1 (in [uint64]).  With a
    nonzero total supply T below 2^63 it appends the parameter upsert for
    that ID and a holding delta of exactly T for the creator; with
    zero-valued parameters it appends the ID to the destructions and
    nothing else. *)
Lemma asset_creation
    (decode : list Byte.byte → option SignedTxnInBlock) (fails : Step → bool)
    (round intra : Z) (txnbytes : list Byte.byte)
    (a a1 : AccountingState) (db db1 : Store) (stxn : SignedTxnInBlock) :
  decode txnbytes = Some stxn →
  TxType stxn = "acfg" →
  ConfigAsset stxn = 0 →
  roundTransition fails round a db = (None, a1, db1) →
  let assetId := Int.uint64 (txnCounter a + intra + 1) in
  let p := TxnAssetParams stxn in
  ∃ a',
    AddTransaction decode fails round intra txnbytes a db = (None, a', db1) ∧
    (Total p ≠ 0 → 0 ≤ Total p < 2 ^ 63 →
     AcfgUpdates (updates a')
       = AcfgUpdates (updates a1) ++ [mkAcfgUpdate assetId (Sender stxn) p] ∧
     AssetUpdates (updates a')
       = AssetUpdates (updates a1)
         ++ [mkAssetUpdate (Sender stxn) assetId (Total p) (DefaultFrozen p)] ∧
     AssetDestroys (updates a') = AssetDestroys (updates a1)) ∧
    (p = zeroParams →
     AssetDestroys (updates a') = AssetDestroys (updates a1) ++ [assetId] ∧
     AcfgUpdates (updates a') = AcfgUpdates (updates a1) ∧
     AssetUpdates (updates a') = AssetUpdates (updates a1)).
Proof.
  intros Hd Hty Hc Ht assetId p.
  unfold AddTransaction. rewrite Hd, Ht.
  unfold typeAccounting. rewrite Hty. simpl.
  eexists. split; [reflexivity|].
  pose proof (roundTransition_txnCounter _ _ _ _ _ _ _ Ht) as Hcnt.
  destruct (feeAccounting_frame stxn a1) as (Hcnt' & _).
  destruct (feeAccounting_rest stxn a1) as (Hau & Hcu & _ & _ & Had & _).
  assert (acfgAssetId intra stxn (feeAccounting stxn a1) = assetId) as Hid.
  { rewrite acfgAssetId_create; rewrite ?Hcnt', ?Hcnt; done. }
  unfold acfgAccounting. rewrite Hid. fold p. split.
  - intros HT Hrange.
    assert (IsZero p = false) as ->.
    { apply bool_decide_eq_false. intros Hp. by rewrite Hp in HT. }
    rewrite !bool_decide_eq_true_2 by done.
    unfold updateAsset; simpl. rewrite lookup_insert_eq; simpl.
    rewrite int64_small by lia. by rewrite Hau, Hcu, Had.
  - intros Hp.
    assert (IsZero p = true) as -> by by apply bool_decide_eq_true.
    simpl. by rewrite Hau, Hcu, Had.
Qed.

Example asset_creation_supply_100 :
  let a := Sample.engine noUpdates in
  let db := Sample.store ∅ in
  ∃ a',
    AddTransaction Txns.decode never 5 0 [Byte.x02] a db = (None, a', db) ∧
    AcfgUpdates (updates a') = [mkAcfgUpdate 1 Sample.A (Txns.supply 100)] ∧
    AssetUpdates (updates a') = [mkAssetUpdate Sample.A 1 100 false].
Proof.
  destruct (asset_creation Txns.decode never 5 0 [Byte.x02]
              (Sample.engine noUpdates) (Sample.engine noUpdates)
              (Sample.store ∅) (Sample.store ∅)
              (Txns.acfg Sample.A 10 0 (Txns.supply 100))
              eq_refl eq_refl eq_refl eq_refl)
    as (a' & Hadd & Hcreate & _).
  exists a'. split; [exact Hadd|].
  destruct Hcreate as (Hcu & Hau & _); [discriminate | simpl; lia |].
  split; [exact Hcu | exact Hau].
Defined.

(** ** The cursor *)

(** While the context is not done, every row scanned is sent, failed scans
    among them, and the loop goes through all rows. *)
Lemma yieldLoop_sends_all k rs : yieldLoop notDone k rs = scanRow <$> rs.
Proof.
  revert k. induction rs as [|r rs IH]; intros k; simpl; [done|].
  rewrite IH. by destruct (RowError (scanRow r)).
Qed.

(** C9 (the code departs from the claim).  The claim: a read error shows
    as the last element of the sequence, an error element, with no normal
    element after it, never as a silent end.  Here the scan of the first
    row fails and the second row scans: the error element is followed by a
    normal element.  And when the iteration itself stops on an error after
    one row, the sequence is that row and nothing else. *)
Theorem C9_error_element_not_final :
  let e := ERead "scan" in
  yieldTxnsThread notDone
    (mkRows [ScanFailed e; Scanned 6 0 [Byte.x01]] None)
  = [mkTxnRow 0 0 [] (Some e); mkTxnRow 6 0 [Byte.x01] None] ∧
  yieldTxnsThread notDone (mkRows [Scanned 6 0 [Byte.x01]] (Some e))
  = [mkTxnRow 6 0 [Byte.x01] None].
Proof. split; reflexivity. Qed.

(** * Further properties of the engine *)

Section EngineMore.

Variable decode : list Byte.byte → option SignedTxnInBlock.
Variable fails : Step → bool.

Lemma feeAccounting_context stxn a :
  contextOf (feeAccounting stxn a) = contextOf a.
Proof. unfold feeAccounting. case_bool_decide; done. Qed.

Lemma typeAccounting_context intra stxn a err a' :
  typeAccounting intra stxn a = (err, a') → contextOf a' = contextOf a.
Proof.
  unfold typeAccounting, payAccounting, acfgAccounting, axferAccounting.
  intros H.
  repeat (case_bool_decide || case_match); simplify_eq; reflexivity.
Qed.

(** A successful round transition leaves the engine in the round asked
    for. *)
Lemma roundTransition_round round a db a' db' :
  roundTransition fails round a db = (None, a', db') → currentRound a' = round.
Proof.
  unfold roundTransition, initRound. intros H.
  case_bool_decide as Hr.
  - destruct (commitRound fails a db) as [[[e|] a1] db1]; [discriminate|].
    destruct (GetBlock fails round db1) as [b|e]; simpl in H; by simplify_eq.
  - by simplify_eq.
Qed.

(** Within the current round [AddTransaction] does not reach the store:
    the store it returns is the one it was given, the round context and
    the counter stay, and the only errors are those of decoding and of an
    unknown type. *)
Theorem AddTransaction_same_round round intra txnbytes a db err a' db' :
  currentRound a = round →
  AddTransaction decode fails round intra txnbytes a db = (err, a', db') →
  db' = db ∧ contextOf a' = contextOf a ∧
  (err = None ∨ err = Some EDecode ∨ ∃ ty, err = Some (EUnknownType ty)).
Proof.
  intros Hr H. unfold AddTransaction, roundTransition in H.
  destruct (decode txnbytes) as [stxn|]; [|simplify_eq; auto].
  rewrite bool_decide_eq_false_2 in H by (intros Hne; by apply Hne).
  destruct (typeAccounting _ _ _) as [e a2] eqn:Hty. simplify_eq.
  split; [done|]. split.
  - apply typeAccounting_context in Hty. by rewrite Hty, feeAccounting_context.
  - destruct err as [e|]; [|auto]. right. right.
    apply typeAccounting_error in Hty as [-> _]. eauto.
Qed.

Lemma algoGrows_refl a : algoGrows a a.
Proof. intros x. done. Qed.

Lemma algoGrows_trans a b c : algoGrows a b → algoGrows b c → algoGrows a c.
Proof. intros H1 H2 x Hx. auto. Qed.

Lemma updateAlgo_grows addr d a : algoGrows a (updateAlgo addr d a).
Proof.
  intros x Hx. unfold updateAlgo; simpl.
  destruct (decide (x = addr)) as [->|Hne].
  - rewrite lookup_insert_eq. eauto.
  - by rewrite lookup_insert_ne.
Qed.

Lemma updateAlgo_grows2 addr d addr' d' a :
  algoGrows a (updateAlgo addr d (updateAlgo addr' d' a)).
Proof. eapply algoGrows_trans; apply updateAlgo_grows. Qed.

Lemma payAccounting_grows stxn a : algoGrows a (payAccounting stxn a).
Proof.
  unfold payAccounting.
  repeat case_bool_decide;
    repeat (first [ apply algoGrows_refl
                  | eapply algoGrows_trans; [|apply updateAlgo_grows2] ]).
Qed.

Lemma typeAccounting_grows intra stxn a err a' :
  typeAccounting intra stxn a = (err, a') → algoGrows a a'.
Proof.
  unfold typeAccounting. intros H.
  repeat case_bool_decide; simplify_eq;
    try apply payAccounting_grows; try apply algoGrows_refl.
  - unfold acfgAccounting.
    repeat (case_bool_decide || case_match); intros x Hx; exact Hx.
  - unfold axferAccounting.
    repeat (case_bool_decide || case_match); intros x Hx; exact Hx.
  - intros x Hx; exact Hx.
Qed.

Lemma feeAccounting_sender stxn a :
  is_Some (AlgoUpdates (updates (feeAccounting stxn a)) !! Sender stxn).
Proof.
  assert (is_Some (AlgoUpdates
            (updates (updateAlgo (Sender stxn) (negInt64 (Fee stxn)) a))
            !! Sender stxn)) as Hs.
  { unfold updateAlgo; simpl. rewrite lookup_insert_eq. eauto. }
  unfold feeAccounting. case_bool_decide.
  - by apply updateAlgo_grows2, updateAlgo_grows.
  - by apply updateAlgo_grows.
Qed.

Lemma AddTransaction_success round intra txnbytes a db a' db' stxn :
  decode txnbytes = Some stxn →
  AddTransaction decode fails round intra txnbytes a db = (None, a', db') →
  currentRound a' = round ∧
  is_Some (AlgoUpdates (updates a') !! Sender stxn) ∧
  updates a' ≠ noUpdates.
Proof.
  intros Hd H. unfold AddTransaction in H. rewrite Hd in H.
  destruct (roundTransition fails round a db) as [[[e|] a1] db1] eqn:Ht;
    [discriminate|].
  destruct (typeAccounting _ _ _) as [e a2] eqn:Hty. simplify_eq.
  assert (is_Some (AlgoUpdates (updates a') !! Sender stxn)) as Hs.
  { eapply typeAccounting_grows; [exact Hty|]. apply feeAccounting_sender. }
  split; [|split; [done|]].
  - apply typeAccounting_context in Hty.
    pose proof (feeAccounting_context stxn a1) as Hf.
    apply roundTransition_round in Ht.
    unfold contextOf in *. injection Hty. injection Hf. congruence.
  - intros Hu. rewrite Hu in Hs. simpl in Hs.
    rewrite lookup_empty in Hs. by destruct Hs.
Qed.

(** Every transaction accounted successfully leaves the engine in the
    round of the transaction with a delta for its sender in the batch, so
    the batch of a round that saw a transaction is never empty. *)
Theorem AddTransaction_batch_nonempty round intra txnbytes a db a' db' stxn :
  decode txnbytes = Some stxn →
  AddTransaction decode fails round intra txnbytes a db = (None, a', db') →
  currentRound a' = round ∧
  is_Some (AlgoUpdates (updates a') !! Sender stxn) ∧
  updates a' ≠ noUpdates.
Proof. apply AddTransaction_success. Qed.

End EngineMore.

Lemma AddTransaction_same_round_witness :
  let r := AddTransaction Txns.decode (only SBegin) 5 0 [Byte.x01]
             (Sample.engine noUpdates) (Sample.store ∅) in
  r.2 = Sample.store ∅ ∧
  contextOf r.1.2 = contextOf (Sample.engine noUpdates) ∧
  (r.1.1 = None ∨ r.1.1 = Some EDecode ∨ ∃ ty, r.1.1 = Some (EUnknownType ty)).
Proof.
  apply (AddTransaction_same_round Txns.decode (only SBegin) 5 0 [Byte.x01]
           (Sample.engine noUpdates) (Sample.store ∅)); reflexivity.
Defined.

Lemma AddTransaction_batch_nonempty_witness :
  let r := AddTransaction Txns.decode never 5 0 [Byte.x01]
             (Sample.engine noUpdates) (Sample.store ∅) in
  currentRound r.1.2 = 5 ∧
  is_Some (AlgoUpdates (updates r.1.2) !! Sample.A) ∧
  updates r.1.2 ≠ noUpdates.
Proof.
  intros r.
  apply (AddTransaction_batch_nonempty Txns.decode never 5 0 [Byte.x01]
           (Sample.engine noUpdates) (Sample.store ∅) r.1.2 r.2
           (Txns.pay Sample.A 10 200 Sample.B)); reflexivity.
Defined.


(** A transaction accounted and the engine closed: the watermark is the
    round of the transaction and the batch is flushed. *)
Theorem AddTransaction_then_Close decode fails fails' round intra txnbytes
    a db a1 db1 a2 db2 stxn :
  decode txnbytes = Some stxn →
  0 ≤ round < 2 ^ 63 →
  AddTransaction decode fails round intra txnbytes a db = (None, a1, db1) →
  Close fails' a1 db1 = (None, a2, db2) →
  metastate_state db2 = Some (mkImportState round) ∧ updates a2 = noUpdates.
Proof.
  intros Hd Hround Hadd Hclose.
  destruct (AddTransaction_success _ _ _ _ _ _ _ _ _ _ Hd Hadd)
    as (Hr & _ & Hne).
  unfold Close, commitRound, CommitRoundAccounting in Hclose.
  destruct (fails' SBegin); [discriminate|].
  destruct (commit_body _ _ _ _ _) as [r|e] eqn:Hbody; [|discriminate].
  apply commit_body_nonempty in Hbody as (tx & -> & Htx); [|done].
  destruct (fails' SCommit); [discriminate|].
  injection Hclose as <- <-. split; [|done].
  rewrite Htx, Hr. by rewrite int64_small by lia.
Qed.

Lemma AddTransaction_then_Close_witness :
  let r := AddTransaction Txns.decode never 5 0 [Byte.x01]
             (Sample.engine noUpdates) (Sample.store ∅) in
  let c := Close never r.1.2 r.2 in
  metastate_state c.2 = Some (mkImportState 5) ∧ updates c.1.2 = noUpdates.
Proof.
  intros r c.
  apply (AddTransaction_then_Close Txns.decode never never 5 0 [Byte.x01]
           (Sample.engine noUpdates) (Sample.store ∅) r.1.2 r.2 c.1.2 c.2
           (Txns.pay Sample.A 10 200 Sample.B)).
  - reflexivity.
  - lia.
  - vm_compute. reflexivity.
  - vm_compute. reflexivity.
Defined.

(** ** Conservation *)

#[local] Instance eqm64_equiv : Equivalence eqm64.
Proof.
  unfold eqm64. split.
  - intros x. reflexivity.
  - intros x y H. by symmetry.
  - intros x y z H1 H2. by etrans.
Qed.

#[local] Instance eqm64_add : Proper (eqm64 ==> eqm64 ==> eqm64) Z.add.
Proof.
  unfold eqm64. intros x x' Hx y y' Hy.
  rewrite (Z.add_mod x y), (Z.add_mod x' y') by lia. by rewrite Hx, Hy.
Qed.

Lemma int64_eqm x : eqm64 (Int.int64 x) x.
Proof.
  unfold eqm64, Int.int64. rewrite Zminus_mod_idemp_l. f_equal. lia.
Qed.

Lemma negInt64_eqm x : eqm64 (negInt64 x) (- x).
Proof. rewrite negInt64_eq. apply int64_eqm. Qed.

Lemma algoTotal_insert (m : gmap Address Z) k v :
  algoTotal (<[k := v]> m) = algoTotal m - algoDelta m k + v.
Proof.
  unfold algoTotal, algoDelta.
  destruct (m !! k) as [x|] eqn:Hk; simpl.
  - rewrite <- insert_delete_eq.
    rewrite map_fold_insert_L; [|intros; lia|apply lookup_delete_eq].
    rewrite (map_fold_delete_L _ _ k x m); [lia|intros; lia|done].
  - rewrite map_fold_insert_L; [lia|intros; lia|done].
Qed.

Lemma updateAlgo_total addr d a :
  eqm64 (algoTotal (AlgoUpdates (updates (updateAlgo addr d a))))
        (algoTotal (AlgoUpdates (updates a)) + d).
Proof.
  unfold updateAlgo; simpl. rewrite algoTotal_insert.
  set (t := algoTotal _). set (o := algoDelta _ _).
  replace (t - o + Int.int64 (o + d)) with (t + (- o + Int.int64 (o + d))) by lia.
  rewrite int64_eqm. replace (- o + (o + d)) with d by lia. reflexivity.
Qed.

(** A debit and the matching credit leave the total where it was. *)
Lemma updateAlgo_pair to v from a :
  eqm64 (algoTotal (AlgoUpdates (updates
           (updateAlgo to (Int.int64 v) (updateAlgo from (negInt64 v) a)))))
        (algoTotal (AlgoUpdates (updates a))).
Proof.
  rewrite !updateAlgo_total, int64_eqm, negInt64_eqm.
  set (t := algoTotal _). replace (t + - v + v) with t by lia. reflexivity.
Qed.

Lemma updateAlgo_pair' to v from a :
  eqm64 (algoTotal (AlgoUpdates (updates
           (updateAlgo to (negInt64 v) (updateAlgo from (Int.int64 v) a)))))
        (algoTotal (AlgoUpdates (updates a))).
Proof.
  rewrite !updateAlgo_total, int64_eqm, negInt64_eqm.
  set (t := algoTotal _). replace (t + v + - v) with t by lia. reflexivity.
Qed.

Lemma updateAlgo_pair_neg to v from a :
  eqm64 (algoTotal (AlgoUpdates (updates
           (updateAlgo to v (updateAlgo from (Int.int64 (- v)) a)))))
        (algoTotal (AlgoUpdates (updates a))).
Proof.
  rewrite !updateAlgo_total, int64_eqm.
  set (t := algoTotal _). replace (t + - v + v) with t by lia. reflexivity.
Qed.

Lemma feeAccounting_total stxn a :
  eqm64 (algoTotal (AlgoUpdates (updates (feeAccounting stxn a))))
        (algoTotal (AlgoUpdates (updates a))).
Proof.
  unfold feeAccounting. case_bool_decide.
  - rewrite updateAlgo_pair'. apply updateAlgo_pair.
  - apply updateAlgo_pair.
Qed.

Lemma payAccounting_total stxn a :
  eqm64 (algoTotal (AlgoUpdates (updates (payAccounting stxn a))))
        (algoTotal (AlgoUpdates (updates a))).
Proof.
  unfold payAccounting.
  repeat case_bool_decide;
    rewrite ?updateAlgo_pair', ?updateAlgo_pair, ?updateAlgo_pair_neg;
    reflexivity.
Qed.

Lemma typeAccounting_total intra stxn a err a' :
  typeAccounting intra stxn a = (err, a') →
  eqm64 (algoTotal (AlgoUpdates (updates a')))
        (algoTotal (AlgoUpdates (updates a))).
Proof.
  unfold typeAccounting. intros H.
  repeat case_bool_decide; simplify_eq;
    try apply payAccounting_total; try reflexivity.
  - unfold acfgAccounting. repeat (case_bool_decide || case_match); reflexivity.
  - unfold axferAccounting. repeat (case_bool_decide || case_match); reflexivity.
Qed.

(** After the round transition, successful or not, the batch is the one
    before it or the empty one. *)
Lemma roundTransition_batch fails round a db err a' db' :
  roundTransition fails round a db = (err, a', db') →
  updates a' = updates a ∨ updates a' = noUpdates.
Proof.
  unfold roundTransition, commitRound, initRound. intros H.
  case_bool_decide; [|simplify_eq; by left].
  destruct (CommitRoundAccounting _ _ _ _ _) as [[e|] db1].
  - simplify_eq. by left.
  - destruct (GetBlock fails round db1) as [b|e]; simpl in H; simplify_eq;
      by right.
Qed.

(** The engine neither creates nor destroys algos: if the algo deltas of
    the pending batch cancel out as 64-bit words, they still do after
    [AddTransaction], whatever it returns. *)
Theorem AddTransaction_conserves_algos decode fails round intra txnbytes
    a db err a' db' :
  algoBalanced a →
  AddTransaction decode fails round intra txnbytes a db = (err, a', db') →
  algoBalanced a'.
Proof.
  unfold algoBalanced. intros Hbal H. unfold AddTransaction in H.
  destruct (decode txnbytes) as [stxn|]; [|by simplify_eq].
  destruct (roundTransition fails round a db) as [[e a1] db1] eqn:Ht.
  assert (eqm64 (algoTotal (AlgoUpdates (updates a1))) 0) as Hbal1.
  { apply roundTransition_batch in Ht as [->| ->]; [done|reflexivity]. }
  destruct e as [e|]; [by simplify_eq|].
  destruct (typeAccounting _ _ _) as [e a2] eqn:Hty. simplify_eq.
  apply typeAccounting_total in Hty.
  by rewrite Hty, feeAccounting_total.
Qed.

Lemma AddTransaction_conserves_algos_witness :
  algoBalanced
    (AddTransaction Txns.decode never 5 0 [Byte.x01]
       (Sample.engine noUpdates) (Sample.store ∅)).1.2.
Proof.
  apply (AddTransaction_conserves_algos Txns.decode never 5 0 [Byte.x01]
           (Sample.engine noUpdates) (Sample.store ∅)
           (AddTransaction Txns.decode never 5 0 [Byte.x01]
              (Sample.engine noUpdates) (Sample.store ∅)).1.1 _
           (AddTransaction Txns.decode never 5 0 [Byte.x01]
              (Sample.engine noUpdates) (Sample.store ∅)).2).
  - reflexivity.
  - reflexivity.
Defined.

(** * Further properties of the round commit *)

Section CommitMore.

Variable fails : Step → bool.

Lemma exec_Ok c k r tx : exec fails c k r = Ok tx → r = Ok tx.
Proof. unfold exec. by destruct (fails _). Qed.

Lemma exec_each_inv {X} (P : Store → Prop) c (stmt : X → Store → Store) xs :
  (∀ x tx, P tx → P (stmt x tx)) →
  ∀ k tx tx', P tx → exec_each fails c stmt k xs tx = Ok tx' → P tx'.
Proof.
  intros Hstmt. induction xs as [|x xs IH]; intros k tx tx' HP H; simpl in H.
  - by simplify_eq.
  - bind_inv H. apply exec_Ok in Hst. simplify_eq. eauto.
Qed.

Lemma close_each_inv (P : Store → Prop) xs :
  (∀ x tx tx', P tx → Sql.acs x tx = Ok tx' → P tx') →
  (∀ x tx, P tx → P (Sql.acd x tx)) →
  ∀ k tx tx', P tx → close_each fails k xs tx = Ok tx' → P tx'.
Proof.
  intros Hacs Hacd. induction xs as [|x xs IH]; intros k tx tx' HP H; simpl in H.
  - by simplify_eq.
  - bind_inv H. apply exec_Ok in Hst.
    bind_inv H. apply exec_Ok in Hst0. simplify_eq. eauto.
Qed.

Lemma destroy_each_inv (P : Store → Prop) xs :
  (∀ x tx, P tx → P (Sql.ads x tx)) →
  ∀ k tx, P tx → P (destroy_each fails k xs tx).
Proof.
  intros Hads. induction xs as [|x xs IH]; intros k tx HP; simpl; [done|].
  apply IH. destruct (fails _); auto.
Qed.

(** What a category hands on is what its loop made of the transaction;
    for an empty category that is the transaction itself. *)
Lemma category_loop {X} (xs : list X) c loop st st' :
  (∀ tx, loop [] tx = Ok tx) →
  category fails xs c loop st = Ok st' → loop xs st.2 = Ok st'.2.
Proof.
  intros Hnil H. destruct xs as [|x xs]; simpl in H.
  - simplify_eq. apply Hnil.
  - bind_inv H. bind_inv H. by simplify_eq.
Qed.

Lemma category_cases {X} (xs : list X) c loop st st' :
  category fails xs c loop st = Ok st' →
  match xs with
  | [] => st' = st
  | _ => loop xs st.2 = Ok st'.2
  end.
Proof.
  intros H. destruct xs as [|x xs]; simpl in H.
  - by simplify_eq.
  - bind_inv H. bind_inv H. by simplify_eq.
Qed.

(** The phases of a commit that reaches [tx.Commit()]. *)
Lemma commit_body_phases updates round rewardsBase db tx :
  commit_body fails updates round rewardsBase db = Ok (Some tx) →
  ∃ tx1 tx2 tx3 tx4 tx5,
    exec_each fails CAlgo (Sql.setalgo rewardsBase) 0
      (map_to_list (AlgoUpdates updates)) db = Ok tx1 ∧
    exec_each fails CAcfg Sql.setacfg 0 (AcfgUpdates updates) tx1 = Ok tx2 ∧
    exec_each fails CAsset Sql.seta 0 (AssetUpdates updates) tx2 = Ok tx3 ∧
    exec_each fails CFreeze Sql.fr 0 (FreezeUpdates updates) tx3 = Ok tx4 ∧
    close_each fails 0 (AssetCloses updates) tx4 = Ok tx5 ∧
    tx = with_metastate_state (Some (mkImportState (Int.int64 round)))
           (destroy_each fails 0 (AssetDestroys updates) tx5).
Proof.
  intros H. unfold commit_body in H.
  bind_inv H. apply category_loop in Hst; [|done].
  bind_inv H. apply category_loop in Hst0; [|done].
  bind_inv H. apply category_loop in Hst1; [|done].
  bind_inv H. apply category_loop in Hst2; [|done].
  bind_inv H. apply category_cases in Hst3.
  bind_inv H. apply category_loop in Hst4; [|done].
  destruct (negb st4.1); [discriminate|].
  bind_inv H. destruct (fails SWriteState); [discriminate|].
  simplify_eq. simpl in *.
  exists st.2, st0.2, st1.2, st2.2, st3.2. repeat split; try done.
  - destruct (AssetCloses updates) as [|ac l]; [by subst|].
    unfold prepare in Hst3.
    by destruct (fails (SPrepare CCloseDel)).
  - by rewrite <- Hst4.
Qed.

(** Whatever every statement keeps, the commit keeps. *)
Lemma CommitRoundAccounting_inv (P : Store → Prop) updates round rewardsBase db :
  commitInvariant P → P db →
  P (CommitRoundAccounting fails updates round rewardsBase db).2.
Proof.
  intros (Halgo & Hacfg & Hseta & Hfr & Hacs & Hacd & Hads & Hmeta) HP.
  unfold CommitRoundAccounting.
  destruct (fails SBegin); [done|].
  destruct (commit_body _ _ _ _ _) as [[tx|]|e] eqn:Hbody; [|done..].
  destruct (fails SCommit); [done|]. simpl.
  apply commit_body_phases in Hbody
    as (tx1 & tx2 & tx3 & tx4 & tx5 & H1 & H2 & H3 & H4 & H5 & ->).
  apply Hmeta, destroy_each_inv; [done|].
  eapply close_each_inv; [done..| |exact H5].
  eapply exec_each_inv; [apply Hfr| |exact H4].
  eapply exec_each_inv; [apply Hseta| |exact H3].
  eapply exec_each_inv; [apply Hacfg| |exact H2].
  eapply exec_each_inv; [apply Halgo| |exact H1]. done.
Qed.

End CommitMore.

(** Solves the cases of [commitInvariant] for statements that leave the
    table in question alone. *)
Ltac frame_stmt :=
  intros;
  try match goal with
      | H : Sql.acs _ _ = Ok _ |- _ =>
          unfold Sql.acs in H; repeat case_match; simplify_eq
      end;
  done.

(** ** What the commit never removes *)

(** An asset row is never deleted by a commit, destructions included, and
    the creator recorded for an asset never changes. *)
Theorem commit_keeps_assets fails updates round rewardsBase db assetId r :
  asset db !! assetId = Some r →
  ∃ r', asset (CommitRoundAccounting fails updates round rewardsBase db).2
          !! assetId = Some r' ∧
        creator_addr r' = creator_addr r.
Proof.
  intros Hr.
  apply (CommitRoundAccounting_inv fails
           (λ tx, ∃ r', asset tx !! assetId = Some r' ∧
                        creator_addr r' = creator_addr r)); [|eauto].
  repeat split; try frame_stmt.
  intros x tx (r' & Hr' & Hc). unfold Sql.setacfg, with_asset; simpl.
  destruct (decide (cu_AssetId x = assetId)) as [->|Hne].
  - rewrite Hr'. rewrite lookup_insert_eq. eauto.
  - destruct (asset tx !! cu_AssetId x); rewrite lookup_insert_ne by done; eauto.
Qed.

Lemma commit_keeps_assets_witness :
  let db := mkStore ∅ {[7 := mkAssetRow Sample.A (Txns.supply 100)]}
              {[(Sample.B, 7) := mkHoldingRow 5 false]} None ∅ in
  let u := mkRoundUpdates ∅ []
             [mkAcfgUpdate 7 Sample.C (Txns.supply 100)] [] [] [7] in
  ∃ r', asset (CommitRoundAccounting never u 5 0 db).2 !! 7 = Some r' ∧
        creator_addr r' = Sample.A.
Proof.
  intros db u.
  apply (commit_keeps_assets never u 5 0 db 7
           (mkAssetRow Sample.A (Txns.supply 100))).
  reflexivity.
Defined.

(** No commit deletes an account row, and no commit touches the block
    headers. *)
Theorem commit_keeps_accounts fails updates round rewardsBase db :
  block_header (CommitRoundAccounting fails updates round rewardsBase db).2
    = block_header db ∧
  ∀ addr,
    is_Some (account db !! addr) →
    is_Some (account (CommitRoundAccounting fails updates round rewardsBase db).2
               !! addr).
Proof.
  split.
  - apply (CommitRoundAccounting_inv fails
             (λ tx, block_header tx = block_header db)); [|done].
    repeat split; frame_stmt.
  - intros addr Ha.
    apply (CommitRoundAccounting_inv fails
             (λ tx, is_Some (account tx !! addr))); [|done].
    repeat split; try frame_stmt.
    intros rb x tx Htx. unfold Sql.setalgo, with_account; simpl.
    destruct (decide (x.1 = addr)) as [->|Hne].
    + destruct (account tx !! addr); rewrite lookup_insert_eq; eauto.
    + destruct (account tx !! x.1); by rewrite lookup_insert_ne.
Qed.

(** ** Destructions *)

Lemma ads_removes assetId tx addr :
  account_asset (Sql.ads assetId tx) !! (addr, assetId) = None.
Proof.
  unfold Sql.ads, with_account_asset; simpl.
  apply map_lookup_filter_None. right. intros x _ Hx. by apply Hx.
Qed.

Lemma ads_keeps_none assetId tx k :
  account_asset tx !! k = None → account_asset (Sql.ads assetId tx) !! k = None.
Proof.
  intros Hk. unfold Sql.ads, with_account_asset; simpl.
  apply map_lookup_filter_None. by left.
Qed.

Lemma destroy_each_keeps_none fails l k tx key :
  account_asset tx !! key = None →
  account_asset (destroy_each fails k l tx) !! key = None.
Proof.
  intros Hk.
  apply (destroy_each_inv fails (λ tx, account_asset tx !! key = None));
    [|done].
  intros x tx0. apply ads_keeps_none.
Qed.

Lemma destroy_each_removes fails l assetId :
  (∀ k, fails (SExec CDestroy k) = false) →
  assetId ∈ l →
  ∀ k tx addr, account_asset (destroy_each fails k l tx) !! (addr, assetId) = None.
Proof.
  intros Hok. induction l as [|x l IH]; intros Hin k tx addr.
  - by apply elem_of_nil in Hin.
  - simpl. rewrite Hok. apply elem_of_cons in Hin as [->|Hin].
    + apply destroy_each_keeps_none, ads_removes.
    + by apply IH.
Qed.

(** A commit that reports success had something to write. *)
Lemma commit_body_None fails updates round rewardsBase db :
  commit_body fails updates round rewardsBase db = Ok None →
  updates = noUpdates.
Proof.
  intros H. unfold commit_body in H.
  bind_inv H. apply category_any in Hst as H1.
  bind_inv H. apply category_any in Hst0 as H2.
  bind_inv H. apply category_any in Hst1 as H3.
  bind_inv H. apply category_any in Hst2 as H4.
  bind_inv H. apply category_any in Hst3 as H5.
  bind_inv H. apply category_any in Hst4 as H6.
  destruct (st4.1) eqn:Hany; simpl in H.
  { bind_inv H. destruct (fails SWriteState); discriminate. }
  destruct H6 as [[E6 ->]|[_ ?]]; [|congruence].
  destruct H5 as [[E5 ->]|[_ ?]]; [|congruence].
  destruct H4 as [[E4 ->]|[_ ?]]; [|congruence].
  destruct H3 as [[E3 ->]|[_ ?]]; [|congruence].
  destruct H2 as [[E2 ->]|[_ ?]]; [|congruence].
  destruct H1 as [[E1 ->]|[_ ?]]; [|congruence].
  destruct updates; simpl in *.
  apply map_to_list_empty_iff in E1. by subst.
Qed.

(** The shape of a successful commit: nothing to do and nothing done, or
    the six phases and the watermark. *)
Lemma CommitRoundAccounting_success fails updates round rewardsBase db db' :
  CommitRoundAccounting fails updates round rewardsBase db = (None, db') →
  (updates = noUpdates ∧ db' = db) ∨
  commit_body fails updates round rewardsBase db = Ok (Some db').
Proof.
  unfold CommitRoundAccounting. intros H.
  destruct (fails SBegin); [discriminate|].
  destruct (commit_body _ _ _ _ _) as [[tx|]|e] eqn:Hbody.
  - destruct (fails SCommit); [discriminate|]. right. by simplify_eq.
  - left. apply commit_body_None in Hbody. by simplify_eq.
  - discriminate.
Qed.

(** When the deletions of a destruction go through and the commit
    succeeds, no account holds the destroyed asset any more. *)
Theorem commit_destroy_removes_holdings fails updates round rewardsBase
    db db' assetId :
  (∀ k, fails (SExec CDestroy k) = false) →
  assetId ∈ AssetDestroys updates →
  CommitRoundAccounting fails updates round rewardsBase db = (None, db') →
  ∀ addr, account_asset db' !! (addr, assetId) = None.
Proof.
  intros Hok Hin H addr.
  apply CommitRoundAccounting_success in H as [[-> _]|H].
  { by apply elem_of_nil in Hin. }
  apply commit_body_phases in H
    as (tx1 & tx2 & tx3 & tx4 & tx5 & _ & _ & _ & _ & _ & ->).
  simpl. by apply destroy_each_removes.
Qed.

Lemma commit_destroy_removes_holdings_witness :
  let db := mkStore ∅ {[7 := mkAssetRow Sample.A (Txns.supply 100)]}
              (<[(Sample.A, 7) := mkHoldingRow 95 false]>
                 {[(Sample.B, 7) := mkHoldingRow 5 false]}) None ∅ in
  account_asset (CommitRoundAccounting never (Sample.destroys [7]) 5 0 db).2
    !! (Sample.B, 7) = None.
Proof.
  intros db.
  apply (commit_destroy_removes_holdings never (Sample.destroys [7]) 5 0 db).
  - reflexivity.
  - apply list_elem_of_here.
  - vm_compute. reflexivity.
Defined.

(** ** The account table after a commit *)

Lemma exec_each_setalgo fails rewardsBase l :
  NoDup l.*1 →
  ∀ k tx tx',
    exec_each fails CAlgo (Sql.setalgo rewardsBase) k l tx = Ok tx' →
    ∀ addr,
      account tx' !! addr =
      match (list_to_map l : gmap Address Z) !! addr with
      | Some d => Some (mkAccountRow (balance (account tx) addr + d) rewardsBase)
      | None => account tx !! addr
      end.
Proof.
  induction l as [|[a d] l IH]; intros Hnd k tx tx' H addr; simpl in H.
  - simplify_eq. by rewrite list_to_map_nil, lookup_empty.
  - bind_inv H. apply exec_Ok in Hst. simplify_eq.
    apply NoDup_cons in Hnd as [Ha Hnd].
    rewrite (IH Hnd _ _ _ H addr), list_to_map_cons.
    destruct (decide (addr = a)) as [->|Hne].
    + rewrite lookup_insert_eq.
      rewrite (not_elem_of_list_to_map_1 _ _ Ha).
      unfold Sql.setalgo, with_account, balance; simpl.
      destruct (account tx !! a) as [r|]; simpl;
        rewrite lookup_insert_eq; do 2 f_equal; lia.
    + rewrite lookup_insert_ne by done.
      assert (account (Sql.setalgo rewardsBase (a, d) tx) !! addr
              = account tx !! addr) as Hsame.
      { unfold Sql.setalgo, with_account; simpl.
        destruct (account tx !! a); by rewrite lookup_insert_ne. }
      unfold balance. by rewrite Hsame.
Qed.

Lemma exec_each_setalgo_frame fails rewardsBase l k tx tx' :
  exec_each fails CAlgo (Sql.setalgo rewardsBase) k l tx = Ok tx' →
  asset tx' = asset tx ∧ account_asset tx' = account_asset tx ∧
  metastate_state tx' = metastate_state tx ∧ block_header tx' = block_header tx.
Proof.
  intros H.
  apply (exec_each_inv fails
           (λ t, asset t = asset tx ∧ account_asset t = account_asset tx ∧
                 metastate_state t = metastate_state tx ∧
                 block_header t = block_header tx)) in H; done.
Qed.

(** What the statements after the algo deltas keep holds from the end of
    the algo phase to the end of the destructions. *)
Lemma phases_after_algo_inv (P : Store → Prop) fails l2 l3 l4 l5 l6
    tx1 tx2 tx3 tx4 tx5 :
  (∀ x tx, P tx → P (Sql.setacfg x tx)) →
  (∀ x tx, P tx → P (Sql.seta x tx)) →
  (∀ x tx, P tx → P (Sql.fr x tx)) →
  (∀ x tx tx', P tx → Sql.acs x tx = Ok tx' → P tx') →
  (∀ x tx, P tx → P (Sql.acd x tx)) →
  (∀ x tx, P tx → P (Sql.ads x tx)) →
  P tx1 →
  exec_each fails CAcfg Sql.setacfg 0 l2 tx1 = Ok tx2 →
  exec_each fails CAsset Sql.seta 0 l3 tx2 = Ok tx3 →
  exec_each fails CFreeze Sql.fr 0 l4 tx3 = Ok tx4 →
  close_each fails 0 l5 tx4 = Ok tx5 →
  P (destroy_each fails 0 l6 tx5).
Proof.
  intros Hacfg Hseta Hfr Hacs Hacd Hads HP H2 H3 H4 H5.
  apply destroy_each_inv; [done|].
  eapply close_each_inv; [done..| |exact H5].
  eapply exec_each_inv; [apply Hfr| |exact H4].
  eapply exec_each_inv; [apply Hseta| |exact H3].
  eapply exec_each_inv; [apply Hacfg| |exact H2]. done.
Qed.

(** After a successful commit every account named in the algo deltas has
    its old balance plus its delta (the delta alone if it is new) and the
    rewards base of the call; every other account row is as it was. *)
Theorem commit_accounts fails updates round rewardsBase db db' :
  CommitRoundAccounting fails updates round rewardsBase db = (None, db') →
  ∀ addr,
    account db' !! addr =
    match AlgoUpdates updates !! addr with
    | Some d => Some (mkAccountRow (balance (account db) addr + d) rewardsBase)
    | None => account db !! addr
    end.
Proof.
  intros H addr.
  apply CommitRoundAccounting_success in H as [[-> ->]|H].
  { change (AlgoUpdates noUpdates) with (∅ : gmap Address Z).
    by rewrite lookup_empty. }
  apply commit_body_phases in H
    as (tx1 & tx2 & tx3 & tx4 & tx5 & H1 & H2 & H3 & H4 & H5 & ->).
  assert (account (destroy_each fails 0 (AssetDestroys updates) tx5)
          = account tx1) as Hframe.
  { eapply (phases_after_algo_inv (λ t, account t = account tx1) fails);
      [frame_stmt.. | | exact H2 | exact H3 | exact H4 | exact H5]. done. }
  simpl. rewrite Hframe.
  rewrite (exec_each_setalgo fails rewardsBase _
             (NoDup_fst_map_to_list _) _ _ _ H1 addr).
  by rewrite list_to_map_to_list.
Qed.

Lemma commit_accounts_witness :
  let db := mkStore {[Sample.A := mkAccountRow 1000 0]} ∅ ∅ None ∅ in
  let u := mkRoundUpdates (<[Sample.A := -210]> {[Sample.B := 200]})
             [] [] [] [] [] in
  account (CommitRoundAccounting never u 5 9 db).2 !! Sample.A
    = Some (mkAccountRow 790 9) ∧
  account (CommitRoundAccounting never u 5 9 db).2 !! Sample.B
    = Some (mkAccountRow 200 9) ∧
  account (CommitRoundAccounting never u 5 9 db).2 !! Sample.C = None.
Proof.
  intros db u.
  pose proof (commit_accounts never u 5 9 db
                (CommitRoundAccounting never u 5 9 db).2 eq_refl) as H.
  split; [exact (H Sample.A)|].
  split; [exact (H Sample.B)|exact (H Sample.C)].
Defined.

Lemma exec_each_never {X} c (stmt : X → Store → Store) l :
  ∀ k tx, ∃ tx', exec_each never c stmt k l tx = Ok tx'.
Proof. induction l as [|x l IH]; intros k tx; simpl; eauto. Qed.

Lemma Store_eq (s t : Store) :
  account s = account t → asset s = asset t →
  account_asset s = account_asset t →
  metastate_state s = metastate_state t → block_header s = block_header t →
  s = t.
Proof. destruct s, t; simpl. by intros -> -> -> -> ->. Qed.

(** Go ranges over the algo deltas in no particular order; the store the
    loop leaves is the same for every order. *)
Theorem setalgo_order_irrelevant rewardsBase (l l' : list (Address * Z)) k k' tx :
  NoDup l.*1 → l ≡ₚ l' →
  exec_each never CAlgo (Sql.setalgo rewardsBase) k l tx
  = exec_each never CAlgo (Sql.setalgo rewardsBase) k' l' tx.
Proof.
  intros Hnd Hperm.
  assert (NoDup l'.*1) as Hnd' by by rewrite <- Hperm.
  destruct (exec_each_never CAlgo (Sql.setalgo rewardsBase) l k tx) as [t1 H1].
  destruct (exec_each_never CAlgo (Sql.setalgo rewardsBase) l' k' tx) as [t2 H2].
  rewrite H1, H2. f_equal.
  destruct (exec_each_setalgo_frame _ _ _ _ _ _ H1) as (? & ? & ? & ?).
  destruct (exec_each_setalgo_frame _ _ _ _ _ _ H2) as (? & ? & ? & ?).
  apply Store_eq; try congruence.
  apply map_eq. intros addr.
  rewrite (exec_each_setalgo _ _ _ Hnd _ _ _ H1 addr).
  rewrite (exec_each_setalgo _ _ _ Hnd' _ _ _ H2 addr).
  by rewrite (list_to_map_proper l l' Hnd Hperm).
Qed.

Lemma setalgo_order_irrelevant_witness :
  exec_each never CAlgo (Sql.setalgo 9) 0
    [(Sample.A, -210); (Sample.B, 200)] (Sample.store ∅)
  = exec_each never CAlgo (Sql.setalgo 9) 0
      [(Sample.B, 200); (Sample.A, -210)] (Sample.store ∅).
Proof.
  apply (setalgo_order_irrelevant 9 [(Sample.A, -210); (Sample.B, 200)]
           [(Sample.B, 200); (Sample.A, -210)]).
  - apply NoDup_cons. split; [|apply NoDup_singleton].
    intros Hin. apply list_elem_of_singleton in Hin. discriminate.
  - apply Permutation_swap.
Defined.

(** ** Holdings after a commit *)

Lemma add_holding_amount k d fz t key :
  holdingAmount (Sql.add_holding k d fz t) key =
  if bool_decide (k = key) then holdingAmount t key + d else holdingAmount t key.
Proof.
  unfold Sql.add_holding, holdingAmount. case_bool_decide as Hk.
  - subst. destruct (t !! key) as [r|]; simpl;
      rewrite lookup_insert_eq; simpl; lia.
  - destruct (t !! k); by rewrite lookup_insert_ne.
Qed.

Lemma exec_each_seta fails l :
  ∀ k tx tx',
    exec_each fails CAsset Sql.seta k l tx = Ok tx' →
    ∀ key, holdingAmount (account_asset tx') key
           = holdingAmount (account_asset tx) key + holdingDelta key l.
Proof.
  induction l as [|au l IH]; intros k tx tx' H key; simpl in H.
  - simplify_eq. simpl. lia.
  - bind_inv H. apply exec_Ok in Hst. simplify_eq.
    rewrite (IH _ _ _ H key). unfold Sql.seta, with_account_asset; simpl.
    rewrite add_holding_amount. case_bool_decide; lia.
Qed.

Lemma fr_amount fs tx key :
  holdingAmount (account_asset (Sql.fr fs tx)) key
  = holdingAmount (account_asset tx) key.
Proof.
  unfold Sql.fr, with_account_asset, holdingAmount; simpl.
  destruct (decide ((fu_Addr fs, fu_AssetId fs) = key)) as [<-|Hne].
  - destruct (account_asset tx !! _) as [r|]; simpl;
      by rewrite lookup_insert_eq.
  - destruct (account_asset tx !! (fu_Addr fs, fu_AssetId fs));
      by rewrite lookup_insert_ne.
Qed.

(** In a commit without closures and destructions, the amount held under
    every (address, asset) key grows by the sum of the batch's deltas for
    that key, a missing row counting as 0; freezes leave amounts alone. *)
Theorem commit_holdings fails updates round rewardsBase db db' :
  AssetCloses updates = [] → AssetDestroys updates = [] →
  CommitRoundAccounting fails updates round rewardsBase db = (None, db') →
  ∀ key, holdingAmount (account_asset db') key
         = holdingAmount (account_asset db) key
           + holdingDelta key (AssetUpdates updates).
Proof.
  intros Hc Hd H key.
  apply CommitRoundAccounting_success in H as [[-> ->]|H].
  { simpl. lia. }
  apply commit_body_phases in H
    as (tx1 & tx2 & tx3 & tx4 & tx5 & H1 & H2 & H3 & H4 & H5 & ->).
  rewrite Hc in H5. rewrite Hd. simpl in *. simplify_eq.
  apply exec_each_setalgo_frame in H1 as (_ & H1 & _).
  apply (exec_each_inv fails (λ t, account_asset t = account_asset tx1)) in H2;
    [|frame_stmt|done].
  apply (exec_each_inv fails
           (λ t, holdingAmount (account_asset t) key
                 = holdingAmount (account_asset tx3) key)) in H4;
    [|intros x tx Htx; by rewrite fr_amount|done].
  rewrite H4, (exec_each_seta _ _ _ _ _ H3 key). by rewrite H2, H1.
Qed.

Lemma commit_holdings_witness :
  let db := Sample.store {[(Sample.A, 7) := mkHoldingRow 80 false]} in
  let u := mkRoundUpdates ∅
             [mkAssetUpdate Sample.A 7 (-50) false;
              mkAssetUpdate Sample.B 7 50 false] [] [] [] [] in
  holdingAmount (account_asset (CommitRoundAccounting never u 5 0 db).2)
    (Sample.A, 7) = 80 + -50 ∧
  holdingAmount (account_asset (CommitRoundAccounting never u 5 0 db).2)
    (Sample.B, 7) = 0 + 50.
Proof.
  intros db u.
  pose proof (commit_holdings never u 5 0 db
                (CommitRoundAccounting never u 5 0 db).2
                eq_refl eq_refl eq_refl) as H.
  split; [exact (H (Sample.A, 7))|exact (H (Sample.B, 7))].
Defined.

(** * Further properties of the engine: round changes and transfers *)

Lemma CommitRoundAccounting_block_header fails updates round rewardsBase db :
  block_header (CommitRoundAccounting fails updates round rewardsBase db).2
  = block_header db.
Proof.
  apply (CommitRoundAccounting_inv fails
           (λ tx, block_header tx = block_header db)); [|done].
  repeat split; frame_stmt.
Qed.

(** A transaction for a new round whose commit of the old round fails is
    not accounted at all: the error is the commit's, and engine (batch of
    the old round included) and store are as before, so the call can be
    repeated. *)
Theorem AddTransaction_commit_failure decode fails round intra txnbytes
    a db stxn e db1 :
  decode txnbytes = Some stxn →
  currentRound a ≠ round →
  CommitRoundAccounting fails (updates a) (currentRound a) (rewardsLevel a) db
    = (Some e, db1) →
  AddTransaction decode fails round intra txnbytes a db
    = (Some (ECommitRound e), a, db).
Proof.
  intros Hd Hr Hc. unfold AddTransaction, roundTransition, commitRound.
  rewrite Hd, bool_decide_eq_true_2, Hc by done.
  by apply CommitRoundAccounting_error_unchanged in Hc as ->.
Qed.

Lemma AddTransaction_commit_failure_witness :
  AddTransaction Txns.decode (only SBegin) 6 0 [Byte.x01]
    (Sample.engine (Sample.destroys [7])) (Sample.store ∅)
  = (Some (ECommitRound (EStorage SBegin)),
     Sample.engine (Sample.destroys [7]), Sample.store ∅).
Proof.
  apply (AddTransaction_commit_failure Txns.decode (only SBegin) 6 0 [Byte.x01]
           (Sample.engine (Sample.destroys [7])) (Sample.store ∅)
           (Txns.pay Sample.A 10 200 Sample.B) (EStorage SBegin)
           (Sample.store ∅)).
  - reflexivity.
  - discriminate.
  - reflexivity.
Defined.

(** A transaction for a new round that has no block header: the old round
    is committed and its batch dropped, the engine stays in the old round,
    nothing of the transaction is accounted, and the error is the missing
    row. *)
Theorem AddTransaction_missing_header decode fails round intra txnbytes
    a db stxn db1 :
  decode txnbytes = Some stxn →
  currentRound a ≠ round →
  CommitRoundAccounting fails (updates a) (currentRound a) (rewardsLevel a) db
    = (None, db1) →
  fails SGetBlock = false →
  block_header db !! round = None →
  AddTransaction decode fails round intra txnbytes a db
    = (Some (EInitRound ENoRows), with_updates (λ _, noUpdates) a, db1).
Proof.
  intros Hd Hr Hc Hg Hh.
  pose proof (CommitRoundAccounting_block_header fails (updates a)
                (currentRound a) (rewardsLevel a) db) as Hbh.
  rewrite Hc in Hbh. simpl in Hbh.
  unfold AddTransaction, roundTransition, commitRound, initRound, GetBlock.
  rewrite Hd, bool_decide_eq_true_2, Hc, Hg, Hbh, Hh by done. reflexivity.
Qed.

Lemma AddTransaction_missing_header_witness :
  let a := Sample.engine (Sample.destroys [7]) in
  let r := AddTransaction Txns.decode never 6 0 [Byte.x01] a (Sample.store ∅) in
  r.1.1 = Some (EInitRound ENoRows) ∧
  r.1.2 = with_updates (λ _, noUpdates) a ∧
  metastate_state r.2 = Some (mkImportState 5).
Proof.
  intros a r.
  pose proof (AddTransaction_missing_header Txns.decode never 6 0 [Byte.x01]
                a (Sample.store ∅) (Txns.pay Sample.A 10 200 Sample.B)
                (CommitRoundAccounting never (updates a) (currentRound a)
                   (rewardsLevel a) (Sample.store ∅)).2
                eq_refl ltac:(discriminate) eq_refl eq_refl eq_refl) as H.
  unfold r. rewrite H. repeat split.
Defined.

Lemma roundTransition_defaultFrozen fails round a db err a' db' :
  roundTransition fails round a db = (err, a', db') →
  defaultFrozen a' = defaultFrozen a.
Proof.
  unfold roundTransition, commitRound, initRound. intros H.
  case_bool_decide; [|by simplify_eq].
  destruct (CommitRoundAccounting _ _ _ _ _) as [[e|] db1].
  - by simplify_eq.
  - destruct (GetBlock fails round db1) as [b|e]; simpl in H; by simplify_eq.
Qed.

Lemma assetTotal_app assetId l l' :
  assetTotal assetId (l ++ l') = assetTotal assetId l + assetTotal assetId l'.
Proof.
  induction l as [|au l IH]; simpl; [lia|].
  case_bool_decide; lia.
Qed.

(** An asset transfer past the round transition: the debit is booked on
    the clawback sender when there is one, else on the sender; debit and
    credit carry the default-frozen flag the engine had cached for the
    asset before the call (the cache outlives round changes), false if it
    had none; a closure is appended exactly when a close-to address is
    given; and the holding deltas of every asset still add up to what
    they did, as 64-bit words. *)
Theorem AddTransaction_asset_transfer decode fails round intra txnbytes
    a db a1 db1 stxn :
  decode txnbytes = Some stxn →
  TxType stxn = "axfer" →
  roundTransition fails round a db = (None, a1, db1) →
  let from :=
    if addrIsZero (AssetSender stxn) then Sender stxn else AssetSender stxn in
  let df := default false (defaultFrozen a !! XferAsset stxn) in
  ∃ a',
    AddTransaction decode fails round intra txnbytes a db = (None, a', db1) ∧
    AssetUpdates (updates a')
      = AssetUpdates (updates a1)
        ++ (if bool_decide (AssetAmount stxn ≠ 0)
            then [mkAssetUpdate from (XferAsset stxn)
                    (negInt64 (AssetAmount stxn)) df;
                  mkAssetUpdate (AssetReceiver stxn) (XferAsset stxn)
                    (Int.int64 (AssetAmount stxn)) df]
            else []) ∧
    AssetCloses (updates a')
      = AssetCloses (updates a1)
        ++ (if addrIsZero (AssetCloseTo stxn) then []
            else [mkAssetClose (AssetCloseTo stxn) (XferAsset stxn) from]) ∧
    ∀ assetId,
      eqm64 (assetTotal assetId (AssetUpdates (updates a')))
            (assetTotal assetId (AssetUpdates (updates a1))).
Proof.
  intros Hd Hty Ht from df.
  unfold AddTransaction, typeAccounting. rewrite Hd, Ht, Hty. simpl.
  eexists. split; [reflexivity|].
  destruct (feeAccounting_rest stxn a1) as (Hau & _ & _ & Hac & _ & Hdf).
  apply roundTransition_defaultFrozen in Ht.
  assert (AssetUpdates (updates (axferAccounting stxn (feeAccounting stxn a1)))
          = AssetUpdates (updates a1)
            ++ (if bool_decide (AssetAmount stxn ≠ 0)
                then [mkAssetUpdate from (XferAsset stxn)
                        (negInt64 (AssetAmount stxn)) df;
                      mkAssetUpdate (AssetReceiver stxn) (XferAsset stxn)
                        (Int.int64 (AssetAmount stxn)) df]
                else [])) as Hupd.
  { unfold axferAccounting, updateAsset, closeAsset, df, from.
    rewrite <- Ht, <- Hdf, <- Hau.
    repeat (case_bool_decide || case_match); simpl;
      rewrite <- ?app_assoc, ?app_nil_r; reflexivity. }
  split; [exact Hupd|]. split.
  - unfold axferAccounting, updateAsset, closeAsset, from. rewrite <- Hac.
    repeat (case_bool_decide || case_match); simpl in *;
      rewrite ?app_nil_r; try reflexivity; congruence.
  - intros assetId. rewrite Hupd, assetTotal_app.
    case_bool_decide; simpl; [|by rewrite Z.add_0_r].
    case_bool_decide; [|by rewrite Z.add_0_r].
    set (t := assetTotal _ _).
    rewrite negInt64_eqm, int64_eqm.
    replace (t + (- AssetAmount stxn + (AssetAmount stxn + 0))) with t by lia.
    reflexivity.
Qed.

Lemma AddTransaction_asset_transfer_witness :
  let a := Sample.engine noUpdates in
  ∃ a',
    AddTransaction Transfers.decode never 5 0 [Byte.x07] a (Sample.store ∅)
      = (None, a', Sample.store ∅) ∧
    AssetUpdates (updates a')
      = [mkAssetUpdate Sample.A 7 (-50) false;
         mkAssetUpdate Sample.B 7 50 false] ∧
    AssetCloses (updates a') = [mkAssetClose Sample.C 7 Sample.A].
Proof.
  intros a.
  destruct (AddTransaction_asset_transfer Transfers.decode never 5 0 [Byte.x07]
              a (Sample.store ∅) a (Sample.store ∅) Transfers.clawback
              eq_refl eq_refl eq_refl)
    as (a' & Hadd & Hau & Hac & _).
  exists a'. split; [exact Hadd|]. split; [exact Hau|exact Hac].
Defined.

(** * The cursor and the import driver *)

Lemma yieldLoop_sublist done rs :
  ∀ k, sublist (yieldLoop done k rs) (scanRow <$> rs).
Proof.
  induction rs as [|r rs IH]; intros k; simpl; [constructor|].
  destruct (done k).
  - apply sublist_cons. apply IH.
  - destruct (RowError (scanRow r)); apply sublist_skip; apply IH.
Qed.

Lemma yieldLoop_complete done rs :
  ∀ k, (∀ i, (i < length rs)%nat → done (k + i)%nat = false) →
       yieldLoop done k rs = scanRow <$> rs.
Proof.
  induction rs as [|r rs IH]; intros k Hdone; simpl; [done|].
  rewrite <- (Nat.add_0_r k) at 1. rewrite Hdone by (simpl; lia).
  rewrite IH.
  - by destruct (RowError (scanRow r)).
  - intros i Hi. rewrite Nat.add_succ_comm. apply Hdone. simpl. lia.
Qed.

(** Whatever the cancellations, what the cursor sends is a sub-sequence of
    the rows scanned: it sends nothing twice, nothing out of order and
    nothing it has not scanned.  When the context is not cancelled while
    the rows are read, it sends every row, failed scans included. *)
Theorem yieldTxnsThread_sublist done rows :
  sublist (yieldTxnsThread done rows) (scanRow <$> scans rows) ∧
  ((∀ i, (i < length (scans rows))%nat → done i = false) →
   yieldTxnsThread done rows = scanRow <$> scans rows).
Proof.
  unfold yieldTxnsThread. split.
  - apply yieldLoop_sublist.
  - intros Hdone. by apply yieldLoop_complete.
Qed.

Section DriverFacts.

Variable decode : list Byte.byte → option SignedTxnInBlock.
Variable fails : nat → Step → bool.

Lemma AddTransaction_None_decodes f round intra txnbytes a db a' db' :
  AddTransaction decode f round intra txnbytes a db = (None, a', db') →
  ∃ stxn, decode txnbytes = Some stxn.
Proof.
  unfold AddTransaction. destruct (decode txnbytes); [eauto|discriminate].
Qed.

(** Without a round limit, a loop that ends without error has fed every
    row to the engine, which is then in the round of the last row with a
    batch that is not empty. *)
Lemma accountingLoop_success txns :
  ∀ k cr rs a db a' db' k',
    txns ≠ [] →
    accountingLoop decode fails 0 k txns cr rs a db = (None, a', db', k') →
    ∃ txn, last txns = Some txn ∧ currentRound a' = Round txn ∧
           updates a' ≠ noUpdates.
Proof.
  induction txns as [|txn rest IH]; intros k cr rs a db a' db' k' Hne H;
    [done|].
  simpl in H. rewrite andb_false_r in H. simpl in H.
  destruct (AddTransaction _ _ _ _ _ _ _) as [[[e|] a1] db1] eqn:Hadd;
    [discriminate|].
  destruct rest as [|txn' rest'].
  - simpl in H. simplify_eq. exists txn. split; [done|].
    destruct (AddTransaction_None_decodes _ _ _ _ _ _ _ _ Hadd) as [stxn Hd].
    destruct (AddTransaction_success _ _ _ _ _ _ _ _ _ _ Hd Hadd)
      as (? & _ & ?). done.
  - apply IH in H as (t & Hlast & ?); [|done]. exists t. split; [|done].
    by rewrite last_cons_cons.
Qed.

(** A run without a round limit over a stream that is not empty, ending
    without error: the watermark is the round of the last row of the
    stream and the engine's batch is flushed. *)
Theorem runAccounting_watermark txns txn db a' db' :
  last txns = Some txn →
  0 ≤ Round txn < 2 ^ 63 →
  runAccounting decode fails 0 txns db = (None, a', db') →
  metastate_state db' = Some (mkImportState (Round txn)) ∧
  updates a' = noUpdates.
Proof.
  intros Hlast Hround H. unfold runAccounting in H.
  destruct (accountingLoop _ _ _ _ _ _ _ _ _) as [[[[e|] a1] db1] k] eqn:Hloop;
    [discriminate|].
  apply accountingLoop_success in Hloop as (t & Hlast' & Hr & Hne);
    [|by intros ->].
  rewrite Hlast in Hlast'. simplify_eq.
  unfold Close, commitRound, CommitRoundAccounting in H.
  destruct (fails k SBegin); [discriminate|].
  destruct (commit_body _ _ _ _ _) as [r|e] eqn:Hbody; [|discriminate].
  apply commit_body_nonempty in Hbody as (tx & -> & Htx); [|done].
  destruct (fails k SCommit); [discriminate|].
  injection H as <- <-. split; [|done].
  rewrite Htx, Hr. by rewrite int64_small by lia.
Qed.

End DriverFacts.

Lemma runAccounting_watermark_witness :
  let txns := [mkTxnRow 1 0 [Byte.x01] None; mkTxnRow 2 0 [Byte.x02] None] in
  let r := runAccounting Txns.decode (λ _, never) 0 txns (Sample.store ∅) in
  metastate_state r.2 = Some (mkImportState 2) ∧ updates r.1.2 = noUpdates.
Proof.
  intros txns r.
  apply (runAccounting_watermark Txns.decode (λ _, never) txns
           (mkTxnRow 2 0 [Byte.x02] None) (Sample.store ∅) r.1.2 r.2).
  - reflexivity.
  - simpl. lia.
  - vm_compute. reflexivity.
Defined.

(** * Genesis *)

Section GenesisFacts.

Variable DecodeAddress : string → Address * bool.
Variable gfails : GenesisStep → bool.

Lemma genesisLoop_rejects_assets allocs alloc :
  alloc ∈ allocs → hasAssets alloc →
  ∀ ai tx, ∃ e, genesisLoop DecodeAddress gfails ai allocs tx = inl e.
Proof.
  intros Hin Hassets. induction allocs as [|x rest IH]; intros ai tx.
  - by apply elem_of_nil in Hin.
  - simpl. apply elem_of_cons in Hin as [<-|Hin].
    + assert (bool_decide (0 < size (ga_AssetParams alloc))%nat
              || bool_decide (0 < size (ga_Assets alloc))%nat = true) as ->;
        [|eauto].
      apply orb_true_iff.
      destruct Hassets as [H|H]; [left|right]; apply bool_decide_eq_true;
        apply map_size_non_empty_iff in H; lia.
    + destruct (_ || _); [eauto|].
      destruct (gfails _); [eauto|].
      destruct (account tx !! _); [eauto|]. apply IH, Hin.
Qed.

Lemma genesisLoop_success allocs :
  ∀ ai tx tx',
    genesisLoop DecodeAddress gfails ai allocs tx = inr tx' →
    NoDup (allocAddr DecodeAddress <$> allocs) ∧
    (∀ alloc, alloc ∈ allocs →
       account tx !! allocAddr DecodeAddress alloc = None ∧
       account tx' !! allocAddr DecodeAddress alloc
         = Some (mkAccountRow (ga_MicroAlgos alloc) 0)) ∧
    (∀ addr, addr ∉ allocAddr DecodeAddress <$> allocs →
       account tx' !! addr = account tx !! addr) ∧
    asset tx' = asset tx ∧ account_asset tx' = account_asset tx ∧
    metastate_state tx' = metastate_state tx ∧
    block_header tx' = block_header tx.
Proof.
  induction allocs as [|x rest IH]; intros ai tx tx' H; simpl in H.
  - simplify_eq. split; [constructor|]. split; [|done].
    by intros alloc Hin%elem_of_nil.
  - destruct (_ || _); [discriminate|].
    destruct (gfails _); [discriminate|].
    destruct (account tx !! allocAddr DecodeAddress x) eqn:Hx; [discriminate|].
    apply IH in H as (Hnd & Hin & Hout & ? & ? & ? & ?).
    assert (allocAddr DecodeAddress x ∉ allocAddr DecodeAddress <$> rest) as Hfresh.
    { intros (y & Hy & Hyin)%list_elem_of_fmap.
      destruct (Hin y Hyin) as [Hnone _]. simpl in Hnone.
      rewrite <- Hy, lookup_insert_eq in Hnone. discriminate. }
    split; [|split; [|split; [|done]]].
    + rewrite fmap_cons. by apply NoDup_cons.
    + intros alloc Ha. apply elem_of_cons in Ha as [->|Hr].
      * split; [done|]. rewrite (Hout _ Hfresh). simpl.
        by rewrite lookup_insert_eq.
      * destruct (Hin alloc Hr) as [Hnone Hsome]. split; [|done].
        simpl in Hnone.
        destruct (decide (allocAddr DecodeAddress x
                          = allocAddr DecodeAddress alloc)) as [E|E].
        -- rewrite E, lookup_insert_eq in Hnone. discriminate.
        -- by rewrite lookup_insert_ne in Hnone.
    + intros addr Haddr. rewrite fmap_cons in Haddr.
      apply not_elem_of_cons in Haddr as [Hne Haddr].
      rewrite (Hout addr Haddr). simpl. by rewrite lookup_insert_ne.
Qed.

(** [LoadGenesis] is all or nothing, and it refuses a genesis in which any
    account has asset parameters or asset holdings. *)
Theorem LoadGenesis_atomic allocs db :
  ((LoadGenesis DecodeAddress gfails allocs db).1 ≠ None →
   (LoadGenesis DecodeAddress gfails allocs db).2 = db) ∧
  (∀ alloc, alloc ∈ allocs → hasAssets alloc →
     (LoadGenesis DecodeAddress gfails allocs db).1 ≠ None).
Proof.
  unfold LoadGenesis. split.
  - destruct (gfails GBegin); [done|]. destruct (gfails GPrepare); [done|].
    destruct (genesisLoop _ _ _ _ _); [done|].
    by destruct (gfails GCommit).
  - intros alloc Hin Hassets.
    destruct (gfails GBegin); [done|]. destruct (gfails GPrepare); [done|].
    destruct (genesisLoop_rejects_assets _ _ Hin Hassets 0%nat db) as [e ->].
    done.
Qed.

Lemma LoadGenesis_inr allocs db db' :
  LoadGenesis DecodeAddress gfails allocs db = (None, db') →
  genesisLoop DecodeAddress gfails 0 allocs db = inr db'.
Proof.
  unfold LoadGenesis. intros H.
  destruct (gfails GBegin); [discriminate|].
  destruct (gfails GPrepare); [discriminate|].
  destruct (genesisLoop _ _ _ _ _) as [e|tx] eqn:Hloop; [discriminate|].
  destruct (gfails GCommit); [discriminate|]. by simplify_eq.
Qed.

(** After a successful [LoadGenesis] every allocation has an account row
    with its balance and rewards base 0 under its decoded address; these
    addresses are pairwise distinct and had no row before; every other
    account row and every other table, the watermark included, is as it
    was. *)
Theorem LoadGenesis_success allocs db db' :
  LoadGenesis DecodeAddress gfails allocs db = (None, db') →
  NoDup (allocAddr DecodeAddress <$> allocs) ∧
  (∀ alloc, alloc ∈ allocs →
     account db !! allocAddr DecodeAddress alloc = None ∧
     account db' !! allocAddr DecodeAddress alloc
       = Some (mkAccountRow (ga_MicroAlgos alloc) 0)) ∧
  (∀ addr, addr ∉ allocAddr DecodeAddress <$> allocs →
     account db' !! addr = account db !! addr) ∧
  asset db' = asset db ∧ account_asset db' = account_asset db ∧
  metastate_state db' = metastate_state db ∧
  block_header db' = block_header db.
Proof. intros H. by apply LoadGenesis_inr, genesisLoop_success in H. Qed.

(** Loading a genesis that is not empty a second time fails, on its first
    account at the latest, and changes nothing. *)
Theorem LoadGenesis_twice gfails' allocs db db' :
  allocs ≠ [] →
  LoadGenesis DecodeAddress gfails allocs db = (None, db') →
  ∃ e, LoadGenesis DecodeAddress gfails' allocs db' = (Some e, db').
Proof.
  intros Hne H. apply LoadGenesis_inr, genesisLoop_success in H as (_ & Hin & _).
  destruct allocs as [|x rest]; [done|].
  destruct (Hin x) as [_ Hx]; [apply list_elem_of_here|].
  unfold LoadGenesis.
  destruct (gfails' GBegin); [eauto|]. destruct (gfails' GPrepare); [eauto|].
  simpl. destruct (_ || _); [eauto|]. destruct (gfails' _); [eauto|].
  rewrite Hx. eauto.
Qed.

End GenesisFacts.

(** * Listing accounts *)

#[local] Instance addrLe_trans : Transitive addrLe.
Proof. unfold addrLe. intros x y z Hxy Hyz. lia. Qed.

#[local] Instance addrLe_total : base.Total addrLe.
Proof. unfold addrLe. intros x y. lia. Qed.


Section GetAccountsFacts.

Variable addrString : Address → string.
Variable lfails : ListStep → bool.




(** When the store has no watermark row, [GetAccounts] fails instead of
    listing accounts, whatever the account table holds. *)
Theorem GetAccounts_no_watermark greaterThan limit db :
  metastate_state db = None →
  ∃ e, GetAccounts addrString lfails greaterThan limit db = inl e.
Proof.
  intros Hnone. unfold GetAccounts. rewrite Hnone.
  destruct (lfails LBegin); [eauto|]. destruct (lfails LReadRound); eauto.
Qed.

End GetAccountsFacts.

Lemma LoadGenesis_atomic_witness :
  (LoadGenesis Genesis.decodeAddress Genesis.noFailure Genesis.withAsset
     Genesis.empty).1 ≠ None ∧
  (LoadGenesis Genesis.decodeAddress Genesis.noFailure Genesis.withAsset
     Genesis.empty).2 = Genesis.empty.
Proof.
  destruct (LoadGenesis_atomic Genesis.decodeAddress Genesis.noFailure
              Genesis.withAsset Genesis.empty) as [Hsame Hrej].
  assert ((LoadGenesis Genesis.decodeAddress Genesis.noFailure
             Genesis.withAsset Genesis.empty).1 ≠ None) as Herr.
  { apply (Hrej (mkGenesisAllocation "BBBB" 500 ∅ {[7 := mkHoldingRow 1 false]})).
    - apply list_elem_of_further, list_elem_of_here.
    - right. simpl. apply insert_non_empty. }
  split; [exact Herr|exact (Hsame Herr)].
Defined.

Lemma LoadGenesis_success_witness :
  let db' := (LoadGenesis Genesis.decodeAddress Genesis.noFailure
                Genesis.allocs Genesis.empty).2 in
  account db' !! 1%N = Some (mkAccountRow 1000 0) ∧
  account db' !! 2%N = Some (mkAccountRow 500 0) ∧
  metastate_state db' = None.
Proof.
  intros db'.
  destruct (LoadGenesis_success Genesis.decodeAddress Genesis.noFailure
              Genesis.allocs Genesis.empty db' eq_refl)
    as (_ & Hin & _ & _ & _ & Hmeta & _).
  split; [|split; [|exact Hmeta]].
  - apply (Hin (mkGenesisAllocation "AAAA" 1000 ∅ ∅)), list_elem_of_here.
  - apply (Hin (mkGenesisAllocation "BBBB" 500 ∅ ∅)).
    apply list_elem_of_further, list_elem_of_here.
Defined.

Lemma LoadGenesis_twice_witness :
  let db' := (LoadGenesis Genesis.decodeAddress Genesis.noFailure
                Genesis.allocs Genesis.empty).2 in
  ∃ e, LoadGenesis Genesis.decodeAddress Genesis.noFailure Genesis.allocs db'
       = (Some e, db').
Proof.
  intros db'.
  apply (LoadGenesis_twice Genesis.decodeAddress Genesis.noFailure
           Genesis.noFailure Genesis.allocs Genesis.empty db').
  - discriminate.
  - reflexivity.
Defined.


Lemma GetAccounts_no_watermark_witness :
  ∃ e, GetAccounts Genesis.addrString Genesis.noListFailure 0%N 10
         (LoadGenesis Genesis.decodeAddress Genesis.noFailure
            Genesis.allocs Genesis.empty).2 = inl e.
Proof.
  apply (GetAccounts_no_watermark Genesis.addrString Genesis.noListFailure).
  reflexivity.
Defined.

(** * The query of [TransactionsForAddress] *)

Ltac try_cond c :=
  solve [exists c; split; [unfold conditions; set_solver|reflexivity]].

Ltac pick_cond :=
  first [ try_cond "p.addr = $" | try_cond "t.round >= $"
        | try_cond "t.round <= $" | try_cond "h.realtime < $"
        | try_cond "h.realtime > $" ].

(** The statement has as many placeholders as arguments, between one and
    five, numbered from 1 in the order of the arguments: the i-th
    condition is one of the five condition texts followed by the number
    i.  The block headers are joined exactly when a time bound is
    given. *)
Theorem buildWhere_placeholders addr firstRound lastRound beforeTime afterTime :
  let w := buildWhere addr firstRound lastRound beforeTime afterTime in
  length (whereParts w) = length (whereArgs w) ∧
  partNumber w = S (length (whereArgs w)) ∧
  (1 ≤ length (whereArgs w) ≤ 5)%nat ∧
  (∀ i part, whereParts w !! i = Some part →
     ∃ cond, cond ∈ conditions ∧ part = cond +:+ pretty (S i)) ∧
  joinHeader w = negb (timeIsZero beforeTime && timeIsZero afterTime).
Proof.
  unfold buildWhere.
  destruct (bool_decide (firstRound ≠ 0)), (bool_decide (lastRound ≠ 0)),
    (timeIsZero beforeTime), (timeIsZero afterTime); simpl;
    (split; [reflexivity|]); (split; [reflexivity|]); (split; [lia|]);
    (split; [|reflexivity]);
    intros i part Hi;
    repeat (destruct i as [|i]; simpl in Hi; [injection Hi as <-; pick_cond|]);
    destruct i; discriminate.
Qed.

(** * Form values *)

Section FormFacts.

Variable E : Type.
Variable ParseUint : string → Z * option E.

Lemma formUint64_skip form key rest defaultValue :
  formValue form key = None →
  formUint64 E ParseUint form (key :: rest) defaultValue
  = formUint64 E ParseUint form rest defaultValue.
Proof.
  unfold formValue. simpl. intros H.
  destruct (form !! key) as [svalues|]; [|done].
  destruct (last svalues) as [svalue|]; [|done].
  by destruct (bool_decide (svalue = "")).
Qed.

(** The first synonym for which the form has a value decides, and of its
    values the last; a key that is absent, has no values or has the empty
    string as last value is passed over; later synonyms are not looked
    at, not even when the value fails to parse.  When every synonym is
    passed over the result is the default and no error. *)
Theorem formUint64_first_value form skipped key rest svalue defaultValue :
  Forall (λ k, formValue form k = None) skipped →
  (formValue form key = Some svalue →
   formUint64 E ParseUint form (skipped ++ key :: rest) defaultValue
   = ParseUint svalue) ∧
  formUint64 E ParseUint form skipped defaultValue = (defaultValue, None).
Proof.
  intros Hskip. induction Hskip as [|k skipped Hk _ [IH1 IH2]].
  - split; [|done]. simpl. unfold formValue. intros H.
    destruct (form !! key) as [svalues|]; [|done].
    destruct (last svalues) as [sv|]; [|done].
    destruct (bool_decide (sv = "")); by simplify_eq.
  - split.
    + intros H. rewrite <- app_comm_cons, formUint64_skip by done. by apply IH1.
    + by rewrite formUint64_skip.
Qed.

End FormFacts.

Lemma formUint64_first_value_witness :
  let parse : string → Z * option unit :=
    λ s, (Z.of_nat (String.length s), None) in
  let form : gmap string (list string) :=
    <["limit" := ["12"; ""]]> (<["l" := ["5"; "700"]]> {["lr" := ["9"]]}) in
  formUint64 unit parse form ["x"; "limit"; "l"; "lr"] 0 = parse "700".
Proof.
  intros parse form.
  apply (formUint64_first_value unit parse form ["x"; "limit"] "l" ["lr"]
           "700" 0).
  - repeat constructor.
  - reflexivity.
Defined.

(** * Closing the only asset an account holds *)

Lemma rows_of_lookup (sender : Address) (t : gmap (Address * Z) HoldingRow)
    (k : Address * Z) :
  Sql.rows_of sender t !! k = if decide (k.1 = sender) then t !! k else None.
Proof.
  unfold Sql.rows_of. destruct (decide (k.1 = sender)) as [Hk|Hk].
  - destruct (t !! k) as [r|] eqn:Hr.
    + by apply map_lookup_filter_Some.
    + apply map_lookup_filter_None. by left.
  - apply map_lookup_filter_None. right. intros r _ Hs. by apply Hk.
Qed.

(** The sender has a row for [assetId] and for no other asset. *)
Lemma rows_of_single (sender : Address) (assetId : Z)
    (t : gmap (Address * Z) HoldingRow) r :
  t !! (sender, assetId) = Some r →
  (∀ a, a ≠ assetId → t !! (sender, a) = None) →
  Sql.rows_of sender t = {[(sender, assetId) := r]}.
Proof.
  intros Hr Hother. apply map_eq. intros [addr a].
  rewrite rows_of_lookup. simpl.
  destruct (decide (addr = sender)) as [->|Hne].
  - destruct (decide (a = assetId)) as [->|Ha].
    + by rewrite lookup_singleton_eq.
    + rewrite lookup_singleton_ne by congruence. by apply Hother.
  - rewrite lookup_singleton_ne by congruence. done.
Qed.

Lemma exec_each_inv_in {X} fails (P : Store → Prop) c (stmt : X → Store → Store) xs :
  (∀ x tx, x ∈ xs → P tx → P (stmt x tx)) →
  ∀ k tx tx', P tx → exec_each fails c stmt k xs tx = Ok tx' → P tx'.
Proof.
  induction xs as [|x xs IH]; intros Hstmt k tx tx' HP H; simpl in H.
  - by simplify_eq.
  - bind_inv H. apply exec_Ok in Hst. simplify_eq.
    eapply IH; [|apply Hstmt; [apply list_elem_of_here|exact HP]|exact H].
    intros y ty Hy. apply Hstmt. by apply list_elem_of_further.
Qed.

(** Asset updates and freezes that name the sender only with [assetId]
    leave the sender with that one row. *)
Lemma add_holding_single (sender : Address) (assetId : Z) (k : Address * Z)
    (d : Z) (fz : bool) (t : gmap (Address * Z) HoldingRow) :
  (k.1 = sender → k.2 = assetId) →
  is_Some (t !! (sender, assetId)) ∧
    (∀ a, a ≠ assetId → t !! (sender, a) = None) →
  is_Some (Sql.add_holding k d fz t !! (sender, assetId)) ∧
    (∀ a, a ≠ assetId → Sql.add_holding k d fz t !! (sender, a) = None).
Proof.
  intros Hk [Hsome Hnone]. unfold Sql.add_holding. split.
  - destruct (decide (k = (sender, assetId))) as [->|Hne].
    + destruct (t !! (sender, assetId)); rewrite lookup_insert_eq; eauto.
    + destruct (t !! k); by rewrite lookup_insert_ne.
  - intros a Ha.
    assert (k ≠ (sender, a)) as Hne.
    { intros ->. simpl in Hk. by destruct Ha; rewrite Hk. }
    destruct (t !! k); rewrite lookup_insert_ne by done; by apply Hnone.
Qed.

Lemma fr_single (sender : Address) (assetId : Z) fs tx :
  (fu_Addr fs = sender → fu_AssetId fs = assetId) →
  is_Some (account_asset tx !! (sender, assetId)) ∧
    (∀ a, a ≠ assetId → account_asset tx !! (sender, a) = None) →
  is_Some (account_asset (Sql.fr fs tx) !! (sender, assetId)) ∧
    (∀ a, a ≠ assetId → account_asset (Sql.fr fs tx) !! (sender, a) = None).
Proof.
  intros Hk [Hsome Hnone]. unfold Sql.fr, with_account_asset; simpl. split.
  - destruct (decide ((fu_Addr fs, fu_AssetId fs) = (sender, assetId)))
      as [->|Hne].
    + destruct (account_asset tx !! (sender, assetId));
        rewrite lookup_insert_eq; eauto.
    + destruct (account_asset tx !! (fu_Addr fs, fu_AssetId fs));
        by rewrite lookup_insert_ne.
  - intros a Ha.
    assert ((fu_Addr fs, fu_AssetId fs) ≠ (sender, a)) as Hne.
    { intros [= Hs Hid]. apply Ha. rewrite <- Hid. by apply Hk. }
    destruct (account_asset tx !! (fu_Addr fs, fu_AssetId fs));
      rewrite lookup_insert_ne by done; by apply Hnone.
Qed.

(** The two statements of a closure on a sender with the one row. *)
Lemma close_single ac tx tx1 :
  is_Some (account_asset tx !! (ac_Sender ac, ac_AssetId ac)) →
  (∀ a, a ≠ ac_AssetId ac → account_asset tx !! (ac_Sender ac, a) = None) →
  ac_CloseTo ac ≠ ac_Sender ac →
  Sql.acs ac tx = Ok tx1 →
  ∀ k,
    (k.1 = ac_Sender ac → account_asset (Sql.acd ac tx1) !! k = None) ∧
    (k.1 ≠ ac_Sender ac →
     holdingAmount (account_asset (Sql.acd ac tx1)) k
     = holdingAmount (account_asset tx) k
       + if bool_decide (k = (ac_CloseTo ac, ac_AssetId ac))
         then holdingAmount (account_asset tx) (ac_Sender ac, ac_AssetId ac)
         else 0).
Proof.
  intros [r Hr] Hother Hne Hacs k.
  unfold Sql.acs in Hacs.
  rewrite (rows_of_single _ _ _ _ Hr Hother), map_to_list_singleton in Hacs.
  simplify_eq. split.
  - intros Hk. destruct k as [addr a]. simpl in Hk. subst addr.
    apply acd_removes_all_of_sender.
  - intros Hk. unfold Sql.acd, with_account_asset, holdingAmount; simpl.
    assert (filter (λ kv : Address * Z * HoldingRow, kv.1.1 ≠ ac_Sender ac)
              (Sql.add_holding (ac_CloseTo ac, ac_AssetId ac) (amount r) false
                 (account_asset tx)) !! k
            = Sql.add_holding (ac_CloseTo ac, ac_AssetId ac) (amount r) false
                (account_asset tx) !! k) as ->.
    { destruct (Sql.add_holding _ _ _ _ !! k) as [x|] eqn:Hx.
      - by apply map_lookup_filter_Some.
      - apply map_lookup_filter_None. by left. }
    pose proof (add_holding_amount (ac_CloseTo ac, ac_AssetId ac) (amount r)
                  false (account_asset tx) k) as Hamt.
    unfold holdingAmount in Hamt. rewrite Hamt, Hr. simpl.
    repeat case_bool_decide; try lia; congruence.
Qed.

(** An account whose only holding is of one asset, closed out in a round:
    when the batch's asset updates and freezes name the account with that
    asset only, its one closure is of that asset to another account and
    nothing is destroyed, a successful commit leaves the account without
    any holding row, gives the closing account what was held after the
    round's deltas, and gives every other holding its deltas. *)
Theorem commit_close_only_asset fails updates round rewardsBase db db' ac :
  AssetCloses updates = [ac] → AssetDestroys updates = [] →
  ac_CloseTo ac ≠ ac_Sender ac →
  is_Some (account_asset db !! (ac_Sender ac, ac_AssetId ac)) →
  (∀ a, a ≠ ac_AssetId ac → account_asset db !! (ac_Sender ac, a) = None) →
  (∀ au, au ∈ AssetUpdates updates →
     au_Addr au = ac_Sender ac → au_AssetId au = ac_AssetId ac) →
  (∀ fs, fs ∈ FreezeUpdates updates →
     fu_Addr fs = ac_Sender ac → fu_AssetId fs = ac_AssetId ac) →
  CommitRoundAccounting fails updates round rewardsBase db = (None, db') →
  ∀ k,
    (k.1 = ac_Sender ac → account_asset db' !! k = None) ∧
    (k.1 ≠ ac_Sender ac →
     holdingAmount (account_asset db') k
     = holdingAmount (account_asset db) k
       + holdingDelta k (AssetUpdates updates)
       + if bool_decide (k = (ac_CloseTo ac, ac_AssetId ac))
         then holdingAmount (account_asset db) (ac_Sender ac, ac_AssetId ac)
              + holdingDelta (ac_Sender ac, ac_AssetId ac) (AssetUpdates updates)
         else 0).
Proof.
  intros Hc Hd Hne Hsome Hother Hau Hfs H k.
  apply CommitRoundAccounting_success in H as [[-> _]|H]; [discriminate|].
  apply commit_body_phases in H
    as (tx1 & tx2 & tx3 & tx4 & tx5 & H1 & H2 & H3 & H4 & H5 & ->).
  rewrite Hc in H5. rewrite Hd. simpl in H5. simpl.
  bind_inv H5. apply exec_Ok in Hst.
  bind_inv H5. apply exec_Ok in Hst0. simplify_eq.
  apply exec_each_setalgo_frame in H1 as (_ & H1 & _).
  apply (exec_each_inv fails (λ t, account_asset t = account_asset tx1)) in H2;
    [|frame_stmt|done].
  assert (account_asset tx2 = account_asset db) as Hdb by congruence.
  set (single := λ t : Store,
         is_Some (account_asset t !! (ac_Sender ac, ac_AssetId ac)) ∧
         ∀ a, a ≠ ac_AssetId ac → account_asset t !! (ac_Sender ac, a) = None).
  assert (single tx3) as Hs3.
  { apply (exec_each_inv_in fails single CAsset Sql.seta (AssetUpdates updates))
      with (tx := tx2) (k := 0%nat) (tx' := tx3);
      [|by unfold single; rewrite Hdb|exact H3].
    intros au tx Hin Hs. unfold Sql.seta, with_account_asset; simpl.
    apply add_holding_single; [|exact Hs]. simpl. by apply Hau. }
  assert (single tx4) as [Hs4 Ho4].
  { apply (exec_each_inv_in fails single CFreeze Sql.fr (FreezeUpdates updates))
      with (tx := tx3) (k := 0%nat) (tx' := tx4); [|exact Hs3|exact H4].
    intros fs tx Hin Hs. apply fr_single; [by apply Hfs|exact Hs]. }
  assert (∀ key, holdingAmount (account_asset tx4) key
                 = holdingAmount (account_asset db) key
                   + holdingDelta key (AssetUpdates updates)) as Hamt.
  { intros key.
    apply (exec_each_inv fails
             (λ t, holdingAmount (account_asset t) key
                   = holdingAmount (account_asset tx3) key)) in H4;
      [|intros x tx Htx; by rewrite fr_amount|done].
    by rewrite H4, (exec_each_seta _ _ _ _ _ H3 key), Hdb. }
  destruct (close_single ac tx4 _ Hs4 Ho4 Hne Hst k) as [Hgone Hmove].
  split; [exact Hgone|].
  intros Hk. rewrite (Hmove Hk), !Hamt. lia.
Qed.

Lemma commit_close_only_asset_witness :
  let db := Sample.store (<[(Sample.A, 7) := mkHoldingRow 80 false]>
                            {[(Sample.C, 7) := mkHoldingRow 5 false]}) in
  let u := mkRoundUpdates ∅
             [mkAssetUpdate Sample.A 7 (-50) false;
              mkAssetUpdate Sample.B 7 50 false] [] []
             [mkAssetClose Sample.C 7 Sample.A] [] in
  let db' := (CommitRoundAccounting never u 5 0 db).2 in
  account_asset db' !! (Sample.A, 7) = None ∧
  holdingAmount (account_asset db') (Sample.B, 7) = 0 + (50 + 0) + 0 ∧
  holdingAmount (account_asset db') (Sample.C, 7) = 5 + 0 + (80 + (-50 + 0)).
Proof.
  intros db u db'.
  assert (∀ a, a ≠ 7 → account_asset db !! (Sample.A, a) = None) as Hother.
  { intros a Ha. unfold db. simpl.
    rewrite lookup_insert_ne by congruence.
    apply lookup_singleton_ne. discriminate. }
  assert (∀ au, au ∈ AssetUpdates u → au_Addr au = Sample.A → au_AssetId au = 7)
    as Hau.
  { intros au Hin _. unfold u in Hin. simpl in Hin.
    apply elem_of_cons in Hin as [->|Hin]; [done|].
    apply list_elem_of_singleton in Hin as ->. done. }
  pose proof (commit_close_only_asset never u 5 0 db db'
                (mkAssetClose Sample.C 7 Sample.A) eq_refl eq_refl
                ltac:(discriminate) ltac:(eexists; reflexivity) Hother Hau
                ltac:(intros fs Hin; by apply elem_of_nil in Hin) eq_refl) as H.
  split; [exact (proj1 (H (Sample.A, 7)) eq_refl)|].
  split.
  - exact (proj2 (H (Sample.B, 7)) ltac:(discriminate)).
  - exact (proj2 (H (Sample.C, 7)) ltac:(discriminate)).
Defined.

(** * Entering a new round *)

(** A transaction for a round other than the engine's, once the old round
    is committed: the fee sink, the rewards pool and the rewards level are
    those of the block header the store had for the new round, the batch
    is empty, and the default-frozen cache and the counter are kept. *)
Theorem roundTransition_loads_context fails round a db a' db' :
  currentRound a ≠ round →
  roundTransition fails round a db = (None, a', db') →
  ∃ b,
    block_header db !! round = Some b ∧
    a' = mkAccountingState (defaultFrozen a) round noUpdates (FeeSink b)
           (RewardsPool b) (RewardsLevel b) (txnCounter a).
Proof.
  intros Hr H. unfold roundTransition, commitRound, initRound, GetBlock in H.
  rewrite bool_decide_eq_true_2 in H by done.
  pose proof (CommitRoundAccounting_block_header fails (updates a)
                (currentRound a) (rewardsLevel a) db) as Hbh.
  destruct (CommitRoundAccounting _ _ _ _ _) as [[e|] db1]; [discriminate|].
  simpl in Hbh. destruct (fails SGetBlock); [discriminate|].
  rewrite Hbh in H.
  destruct (block_header db !! round) as [b|]; [|discriminate].
  simpl in H. simplify_eq. eauto.
Qed.

Lemma roundTransition_loads_context_witness :
  ∃ b,
    block_header (Sample.store ∅) !! 1 = Some b ∧
    (roundTransition never 1 (Sample.engine (Sample.destroys [7]))
       (Sample.store ∅)).1.2
    = mkAccountingState ∅ 1 noUpdates (FeeSink b) (RewardsPool b)
        (RewardsLevel b) 0.
Proof.
  apply (roundTransition_loads_context never 1
           (Sample.engine (Sample.destroys [7])) (Sample.store ∅) _
           (roundTransition never 1 (Sample.engine (Sample.destroys [7]))
              (Sample.store ∅)).2).
  - discriminate.
  - reflexivity.
Defined.

Lemma yieldTxnsThread_sublist_witness :
  let rows := mkRows [Scanned 6 0 [Byte.x01]; ScanFailed (ERead "scan");
                      Scanned 6 1 [Byte.x02]] None in
  yieldTxnsThread notDone rows = scanRow <$> scans rows.
Proof.
  intros rows.
  apply (proj2 (yieldTxnsThread_sublist notDone rows)).
  intros i _. reflexivity.
Defined.

Lemma commit_keeps_accounts_witness :
  let db := mkStore {[Sample.A := mkAccountRow 1000 0]} ∅ ∅ None ∅ in
  let u := mkRoundUpdates {[Sample.B := 200]} [] [] [] [] [7] in
  is_Some (account (CommitRoundAccounting never u 5 9 db).2 !! Sample.A).
Proof.
  intros db u.
  apply (proj2 (commit_keeps_accounts never u 5 9 db) Sample.A).
  eexists. reflexivity.
Defined.
